(** * Credit ledger and GrooveSell webhook reconciliation

    A shallow embedding of [src/app/api/groovesell/webhook/route.ts] and of the
    SQL schema and functions it relies on ([user_profiles], [transactions],
    [get_available_credits], [use_credits], [add_credits]).

    Modelling conventions.
    - A table is the list of its rows; [UPDATE ... WHERE] maps over the rows,
      [SELECT ... WHERE] filters them, [INSERT] appends.
    - [INTEGER] columns and JavaScript numbers holding credits are integers in
      [Z], and amounts are rationals; the credit columns hold no NULL.  The
      embedding agrees with PostgreSQL inside the column types ([INTEGER],
      [DECIMAL_10_2] below), which the properties take as hypotheses.
    - Generated columns ([transactions.id], [created_at], [updated_at]) and
      console logging carry no behaviour and are left out.
    - Row level security is not modelled: the server client sees every row.
    - Every call to the store may complete, return an error object, or throw;
      which one happens is read from a schedule of faults carried by the
      world, one entry per call. *)

From Stdlib Require Import ZArith QArith List String Bool Lia.
Import ListNotations.

Open Scope string_scope.
Open Scope Z_scope.

(** ** Schema *)

(** [subscription_status IN ('inactive', 'active', 'cancelled', 'past_due')] *)
Inductive subscription_status_t : Type :=
  | inactive | active | cancelled | past_due.

(** [subscription_type IN ('monthly', 'yearly')] *)
Inductive plan : Type :=
  | monthly | yearly.

(** [transaction_type IN ('purchase', 'refund', 'bonus')] *)
Inductive transaction_type_t : Type :=
  | purchase | refund | bonus.

(** [status IN ('pending', 'completed', 'failed', 'refunded')] *)
Inductive transaction_status_t : Type :=
  | pending | completed | failed | refunded.

(** A row of [public.user_profiles]. *)
Record user_profile : Type := mk_profile {
  id : string;
  email : string;
  subscription_status : subscription_status_t;
  subscription_type : option plan;
  total_credits : Z;
  used_credits : Z;
  groovesell_customer_id : option string
}.

(** A row of [public.transactions]. *)
Record transaction : Type := mk_transaction {
  user_id : string;
  groovesell_order_id : string;
  transaction_type : transaction_type_t;
  credits_added : Z;
  tx_amount : option Q;
  tx_currency : string;
  tx_subscription_type : option plan;
  tx_status : transaction_status_t
}.

Record database : Type := mk_database {
  user_profiles : list user_profile;
  transactions : list transaction
}.

(** ** Column types

    The SQL below is embedded with integers in [Z] and amounts in [Q].  It
    agrees with PostgreSQL as long as what is computed and stored fits the
    column types; outside them PostgreSQL raises and writes nothing.  The
    properties that rely on a write say so by these two predicates. *)

(** The values of an [INTEGER] column, parameter or expression. *)
Definition INTEGER (z : Z) : Prop := -2147483648 <= z <= 2147483647.

(** The amounts an [amount DECIMAL(10,2)] column stores as they are: a whole
    number of hundredths, below 10^8 in absolute value. *)
Definition DECIMAL_10_2 (q : Q) : Prop :=
  exists hundredths : Z,
    (q == hundredths # 100)%Q /\ Z.abs hundredths < 10000000000.

(** ** Row updates *)

Definition set_total_credits (v : Z) (p : user_profile) : user_profile :=
  mk_profile (id p) (email p) (subscription_status p) (subscription_type p)
             v (used_credits p) (groovesell_customer_id p).

Definition set_used_credits (v : Z) (p : user_profile) : user_profile :=
  mk_profile (id p) (email p) (subscription_status p) (subscription_type p)
             (total_credits p) v (groovesell_customer_id p).

Definition set_subscription_status (s : subscription_status_t) (p : user_profile)
  : user_profile :=
  mk_profile (id p) (email p) s (subscription_type p)
             (total_credits p) (used_credits p) (groovesell_customer_id p).

(** [UPDATE t SET ... WHERE c]: every row satisfying [c] is rewritten by [f]. *)
Definition update_where {R : Type} (c : R -> bool) (f : R -> R) (rows : list R)
  : list R :=
  map (fun r => if c r then f r else r) rows.

Definition has_id (uuid : string) (p : user_profile) : bool := (id p =? uuid)%string.
Definition has_email (e : string) (p : user_profile) : bool := (email p =? e)%string.
Definition has_order_id (o : string) (t : transaction) : bool :=
  (groovesell_order_id t =? o)%string.

(** ** SQL functions *)

(** [get_available_credits]: the scalar subquery is NULL ([None]) when no row
    has the id. *)
Definition get_available_credits (user_uuid : string) (d : database) : option Z :=
  match find (has_id user_uuid) (user_profiles d) with
  | Some p => Some (total_credits p - used_credits p)
  | None => None
  end.

(** [use_credits]: [SELECT ... INTO available_credits], then the guarded
    [UPDATE].  A NULL [available_credits] makes the comparison NULL, so the
    [ELSE] branch runs.  The difference and the sum are PostgreSQL's as long
    as they are within [INTEGER]. *)
Definition use_credits (user_uuid : string) (credits_to_use : Z) (d : database)
  : bool * database :=
  match get_available_credits user_uuid d with
  | Some available_credits =>
      if available_credits >=? credits_to_use then
        (true,
         mk_database
           (update_where (has_id user_uuid)
              (fun p => set_used_credits (used_credits p + credits_to_use) p)
              (user_profiles d))
           (transactions d))
      else (false, d)
  | None => (false, d)
  end.

(** [add_credits]: the unguarded [UPDATE]; the result is [FOUND].  The sum is
    PostgreSQL's as long as it is within [INTEGER]. *)
Definition add_credits (user_uuid : string) (credits_to_add : Z) (d : database)
  : bool * database :=
  (existsb (has_id user_uuid) (user_profiles d),
   mk_database
     (update_where (has_id user_uuid)
        (fun p => set_total_credits (total_credits p + credits_to_add) p)
        (user_profiles d))
     (transactions d)).

(** ** The webhook payload *)

(** [status: 'completed' | 'refunded' | 'cancelled'] *)
Inductive order_status_t : Type :=
  | order_completed | order_refunded | order_cancelled.

(** [interface GrooveSellWebhook] *)
Record GrooveSellWebhook : Type := mk_webhook {
  event_type : string;
  order_id : string;
  customer_email : string;
  product_id : string;
  product_name : string;
  amount : Q;
  currency : string;
  status : order_status_t;
  payload_subscription_type : option plan;
  created_at : string
}.

(** [process.env]: the two variables the route reads.  The credit variable
    holds the integer [parseInt] reads from it; [None] stands for a variable
    that is unset or empty.  A text [parseInt] cannot read is not
    represented. *)
Record environment : Type := mk_environment {
  GROOVESELL_WEBHOOK_SECRET : option string;
  NEXT_PUBLIC_CREDITS_PER_MONTH : option Z
}.

(** [getCreditsForPurchase]: [parseInt(process.env.... || '5')]. *)
Definition getCreditsForPurchase (env : environment) : Z :=
  match NEXT_PUBLIC_CREDITS_PER_MONTH env with
  | Some n => n
  | None => 5
  end.

(** ** Asynchronous computations over the store *)

(** What the store does at one call. *)
Inductive fault : Type :=
  | healthy   (* the call is carried out *)
  | fails     (* the call changes nothing and returns an error object *)
  | throws.   (* the call changes nothing and throws *)

Record world : Type := mk_world {
  db : database;
  faults : list fault
}.

Inductive completion (A : Type) : Type :=
  | Resolved (a : A)
  | Rejected.
Arguments Resolved {A} a.
Arguments Rejected {A}.

Definition Async (A : Type) : Type := world -> completion A * world.

Definition ret {A : Type} (a : A) : Async A := fun w => (Resolved a, w).

Definition bind {A B : Type} (m : Async A) (k : A -> Async B) : Async B :=
  fun w =>
    match m w with
    | (Resolved a, w') => k a w'
    | (Rejected, w') => (Rejected, w')
    end.

(** [try { m } catch (error) { h }] *)
Definition try_catch {A : Type} (m : Async A) (h : Async A) : Async A :=
  fun w =>
    match m w with
    | (Resolved a, w') => (Resolved a, w')
    | (Rejected, w') => h w'
    end.

Definition lift {A : Type} (c : completion A) : Async A := fun w => (c, w).

Declare Scope async_scope.
Delimit Scope async_scope with async.
Notation "x <- m ;; k" := (bind m (fun x => k))
  (at level 100, m at next level, right associativity) : async_scope.
Notation "'await' m ;; k" := (bind m (fun _ => k))
  (at level 100, m at next level, right associativity) : async_scope.

(** ** The Supabase client *)

(** The [{ data, error }] object every query resolves to. *)
Record response (A : Type) : Type := mk_response {
  resp_data : option A;
  resp_error : bool
}.
Arguments mk_response {A} _ _.
Arguments resp_data {A} _.
Arguments resp_error {A} _.

(** One round trip to the store, under the next scheduled fault (none
    scheduled: the store is healthy). *)
Definition store_call {A : Type} (op : database -> response A * database)
  : Async (response A) :=
  fun w =>
    match faults w with
    | [] => let (r, d) := op (db w) in (Resolved r, mk_world d [])
    | healthy :: rest => let (r, d) := op (db w) in (Resolved r, mk_world d rest)
    | fails :: rest => (Resolved (mk_response None true), mk_world (db w) rest)
    | throws :: rest => (Rejected, mk_world (db w) rest)
    end.

(** [.single()]: exactly one row, or an error. *)
Definition single {R : Type} (rows : list R) : response R :=
  match rows with
  | [r] => mk_response (Some r) false
  | _ => mk_response None true
  end.

(** [from('user_profiles').select(..).eq('email', e).single()] *)
Definition select_profile_by_email (e : string) : Async (response user_profile) :=
  store_call (fun d => (single (filter (has_email e) (user_profiles d)), d)).

(** [from('user_profiles').select(..).eq('id', uuid).single()] *)
Definition select_profile_by_id (uuid : string) : Async (response user_profile) :=
  store_call (fun d => (single (filter (has_id uuid) (user_profiles d)), d)).

(** [from('transactions').select(..).eq('groovesell_order_id', o).single()] *)
Definition select_transaction_by_order_id (o : string) : Async (response transaction) :=
  store_call (fun d => (single (filter (has_order_id o) (transactions d)), d)).

(** [rpc('add_credits', { user_uuid, credits_to_add })] *)
Definition rpc_add_credits (user_uuid : string) (credits_to_add : Z)
  : Async (response bool) :=
  store_call (fun d =>
    let (found, d') := add_credits user_uuid credits_to_add d in
    (mk_response (Some found) false, d')).

(** [from('user_profiles').update(..).eq(..)] *)
Definition update_profiles (c : user_profile -> bool) (f : user_profile -> user_profile)
  : Async (response unit) :=
  store_call (fun d =>
    (mk_response None false,
     mk_database (update_where c f (user_profiles d)) (transactions d))).

(** [from('transactions').insert(t)]: [groovesell_order_id] is [UNIQUE]; a
    second row with the same key is refused with an error.  The row is the
    one PostgreSQL stores as long as [credits_added] is within [INTEGER] and
    the amount satisfies [DECIMAL_10_2]. *)
Definition insert_transaction (t : transaction) : Async (response unit) :=
  store_call (fun d =>
    if existsb (has_order_id (groovesell_order_id t)) (transactions d)
    then (mk_response None true, d)
    else (mk_response None false,
          mk_database (user_profiles d) (transactions d ++ [t]))).

(** ** The event handlers *)

Open Scope async_scope.

(** [data.subscription_type || 'monthly'] *)
Definition subscription_type_or_monthly (data : GrooveSellWebhook) : plan :=
  match payload_subscription_type data with
  | Some t => t
  | None => monthly
  end.

Definition handlePurchaseCompleted (env : environment) (data : GrooveSellWebhook)
  : Async unit :=
  try_catch
    (r <- select_profile_by_email (customer_email data) ;;
     match resp_error r, resp_data r with
     | false, Some users =>
         let userId := id users in
         let creditsToAdd := getCreditsForPurchase env in
         r_add <- rpc_add_credits userId creditsToAdd ;;
         if resp_error r_add then ret tt else
         r_upd <- update_profiles (has_id userId)
                    (fun p => mk_profile (id p) (email p) active
                                (Some (subscription_type_or_monthly data))
                                (total_credits p) (used_credits p)
                                (Some (order_id data))) ;;
         if resp_error r_upd then ret tt else
         await insert_transaction
                 (mk_transaction userId (order_id data) purchase creditsToAdd
                    (Some (amount data)) (currency data)
                    (Some (subscription_type_or_monthly data)) completed) ;;
         ret tt
     | _, _ => ret tt
     end)
    (ret tt).

Definition handleSubscriptionRenewed (env : environment) (data : GrooveSellWebhook)
  : Async unit :=
  try_catch
    (r <- select_profile_by_email (customer_email data) ;;
     match resp_error r, resp_data r with
     | false, Some users =>
         let userId := id users in
         let creditsToAdd := getCreditsForPurchase env in
         await rpc_add_credits userId creditsToAdd ;;
         await insert_transaction
                 (mk_transaction userId (order_id data) purchase creditsToAdd
                    (Some (amount data)) (currency data)
                    (Some (subscription_type_or_monthly data)) completed) ;;
         ret tt
     | _, _ => ret tt
     end)
    (ret tt).

Definition handleSubscriptionCancelled (data : GrooveSellWebhook) : Async unit :=
  try_catch
    (await update_profiles (has_email (customer_email data))
             (set_subscription_status cancelled) ;;
     ret tt)
    (ret tt).

Definition handleRefund (data : GrooveSellWebhook) : Async unit :=
  try_catch
    (r <- select_transaction_by_order_id (order_id data) ;;
     match resp_error r, resp_data r with
     | false, Some original =>
         r_prof <- select_profile_by_id (user_id original) ;;
         await match resp_data r_prof with
               | Some userProfile =>
                   let creditsToRemove :=
                     Z.min (credits_added original) (total_credits userProfile) in
                   await update_profiles (has_id (user_id original))
                           (fun p =>
                              set_subscription_status cancelled
                                (set_total_credits
                                   (Z.max 0 (total_credits userProfile - creditsToRemove))
                                   p)) ;;
                   ret tt
               | None => ret tt
               end ;;
         await insert_transaction
                 (mk_transaction (user_id original) (order_id data ++ "-refund")
                    refund (- credits_added original)
                    (Some (Qopp (amount data))) (currency data)
                    None completed) ;;
         ret tt
     | _, _ => ret tt
     end)
    (ret tt).

(** ** The endpoint *)

(** The incoming request: its raw body and the [x-groovesell-signature]
    header. *)
Record NextRequest : Type := mk_request {
  body : string;
  x_groovesell_signature : option string
}.

(** [NextResponse.json(payload, { status })] *)
Inductive json_body : Type :=
  | success_true
  | error_message (msg : string).

Record NextResponse : Type := mk_NextResponse {
  json : json_body;
  http_status : Z
}.

(** JavaScript truthiness of [string | undefined | null]: [!s] holds for a
    missing value and for the empty string. *)
Definition truthy (s : option string) : option string :=
  match s with
  | Some EmptyString => None
  | Some v => Some v
  | None => None
  end.

(** [crypto.timingSafeEqual] on the bytes of two strings: it throws when the
    lengths differ. *)
Definition timingSafeEqual (a b : string) : completion bool :=
  if (String.length a =? String.length b)%nat
  then Resolved (a =? b)%string
  else Rejected.

Section Endpoint.

(** [crypto.createHmac('sha256', secret).update(payload).digest('hex')],
    as a function of the secret and the payload. *)
Variable hmac_sha256_hex : string -> string -> string.

(** [JSON.parse] at type [GrooveSellWebhook]; [None] when it throws, or
    yields a value whose [event_type] cannot be read. *)
Variable JSON_parse : string -> option GrooveSellWebhook.

Definition verifyWebhookSignature (payload signature secret : string)
  : completion bool :=
  let expectedSignature := hmac_sha256_hex secret payload in
  timingSafeEqual ("sha256=" ++ expectedSignature) signature.

(** The [switch] over [webhookData.event_type]. *)
Definition dispatch (env : environment) (webhookData : GrooveSellWebhook)
  : Async unit :=
  if (event_type webhookData =? "purchase.completed")%string
     || (event_type webhookData =? "subscription.created")%string
  then handlePurchaseCompleted env webhookData
  else if (event_type webhookData =? "subscription.renewed")%string
  then handleSubscriptionRenewed env webhookData
  else if (event_type webhookData =? "subscription.cancelled")%string
  then handleSubscriptionCancelled webhookData
  else if (event_type webhookData =? "refund.processed")%string
  then handleRefund webhookData
  else ret tt.

Definition POST (env : environment) (request : NextRequest) : Async NextResponse :=
  try_catch
    (match truthy (GROOVESELL_WEBHOOK_SECRET env) with
     | None => ret (mk_NextResponse (error_message "Webhook secret not configured") 500)
     | Some webhookSecret =>
         match truthy (x_groovesell_signature request) with
         | None => ret (mk_NextResponse (error_message "Missing signature") 400)
         | Some signature =>
             verified <- lift (verifyWebhookSignature (body request) signature
                                 webhookSecret) ;;
             if negb verified
             then ret (mk_NextResponse (error_message "Invalid signature") 401)
             else
               webhookData <- lift (match JSON_parse (body request) with
                                    | Some v => Resolved v
                                    | None => Rejected
                                    end) ;;
               await dispatch env webhookData ;;
               ret (mk_NextResponse success_true 200)
         end
     end)
    (ret (mk_NextResponse (error_message "Internal server error") 500)).

(** An event is authentic when the secret is configured and the header
    carries the signature the secret gives to the body. *)
Definition authentic (env : environment) (request : NextRequest) : Prop :=
  exists webhookSecret signature,
    truthy (GROOVESELL_WEBHOOK_SECRET env) = Some webhookSecret /\
    truthy (x_groovesell_signature request) = Some signature /\
    verifyWebhookSignature (body request) signature webhookSecret = Resolved true.

End Endpoint.

Close Scope async_scope.

(** ** Sequences of ledger operations *)

(** The operations that write the credit counters: the two credit functions
    and the refund handler (run under any schedule of store faults). *)
Inductive operation : Type :=
  | op_use_credits (user_uuid : string) (credits_to_use : Z)
  | op_add_credits (user_uuid : string) (credits_to_add : Z)
  | op_refund (data : GrooveSellWebhook) (schedule : list fault).

Definition apply_operation (d : database) (o : operation) : database :=
  match o with
  | op_use_credits u n => snd (use_credits u n d)
  | op_add_credits u n => snd (add_credits u n d)
  | op_refund data schedule => db (snd (handleRefund data (mk_world d schedule)))
  end.

Definition run (ops : list operation) (d : database) : database :=
  fold_left apply_operation ops d.

(** The amount an operation asks for is not negative. *)
Definition amount_nonneg (o : operation) : Prop :=
  match o with
  | op_use_credits _ n => 0 <= n
  | op_add_credits _ n => 0 <= n
  | op_refund _ _ => True
  end.

Definition is_refund (o : operation) : bool :=
  match o with
  | op_refund _ _ => true
  | _ => false
  end.

(** The ledger invariant of one account, and its two halves. *)
Definition counters_nonneg (p : user_profile) : Prop :=
  0 <= used_credits p /\ 0 <= total_credits p.

Definition ledger_ok (p : user_profile) : Prop :=
  0 <= used_credits p /\ used_credits p <= total_credits p.

Definition ledger_okb (p : user_profile) : bool :=
  (0 <=? used_credits p) && (used_credits p <=? total_credits p).

(** Both counters at or above 0, for every row. *)
Definition nonneg_ledger (d : database) : Prop :=
  Forall counters_nonneg (user_profiles d).

(** The primary key holds and every row satisfies the ledger invariant. *)
Definition sound_ledger (d : database) : Prop :=
  NoDup (map id (user_profiles d)) /\ Forall ledger_ok (user_profiles d).

(** A property of the database that every step of a computation keeps. *)
Definition preserves {A : Type} (I : database -> Prop) (m : Async A) : Prop :=
  forall w, I (db w) -> I (db (snd (m w))).

(** ** A concrete deployment

    One account, one secret, and three signed deliveries.  The bodies are the
    JSON texts GrooveSell would send; [hmac_sha256_hex] and [JSON_parse] are
    the tables of HMAC-SHA256 and of [JSON.parse] at these bodies. *)
Module Sample.

Definition quote : string := String (Ascii.ascii_of_nat 34) EmptyString.

Definition str_field (k v : string) : string :=
  quote ++ k ++ quote ++ ":" ++ quote ++ v ++ quote.

Definition num_field (k v : string) : string :=
  quote ++ k ++ quote ++ ":" ++ v.

Definition object (fields : list string) : string :=
  "{" ++ String.concat "," fields ++ "}".

Definition purchase_body : string :=
  object [ str_field "event_type" "purchase.completed";
           str_field "order_id" "O1";
           str_field "customer_email" "ann@example.com";
           str_field "product_id" "P1";
           str_field "product_name" "Coloring pages";
           num_field "amount" "9.95";
           str_field "currency" "USD";
           str_field "status" "completed";
           str_field "subscription_type" "yearly";
           str_field "created_at" "2025-01-01T00:00:00Z" ].

Definition purchase_event : GrooveSellWebhook :=
  mk_webhook "purchase.completed" "O1" "ann@example.com" "P1" "Coloring pages"
             (199 # 20) "USD" order_completed (Some yearly) "2025-01-01T00:00:00Z".

Definition refund_body : string :=
  object [ str_field "event_type" "refund.processed";
           str_field "order_id" "O1";
           str_field "customer_email" "ann@example.com";
           str_field "product_id" "P1";
           str_field "product_name" "Coloring pages";
           num_field "amount" "9.95";
           str_field "currency" "USD";
           str_field "status" "refunded";
           str_field "created_at" "2025-01-01T00:00:00Z" ].

Definition refund_event : GrooveSellWebhook :=
  mk_webhook "refund.processed" "O1" "ann@example.com" "P1" "Coloring pages"
             (199 # 20) "USD" order_refunded None "2025-01-01T00:00:00Z".

(** A purchase by a customer who has no account. *)
Definition ghost_body : string :=
  object [ str_field "event_type" "purchase.completed";
           str_field "order_id" "O9";
           str_field "customer_email" "nobody@example.com";
           str_field "product_id" "P1";
           str_field "product_name" "Coloring pages";
           num_field "amount" "9.95";
           str_field "currency" "USD";
           str_field "status" "completed";
           str_field "subscription_type" "yearly";
           str_field "created_at" "2025-01-01T00:00:00Z" ].

Definition ghost_event : GrooveSellWebhook :=
  mk_webhook "purchase.completed" "O9" "nobody@example.com" "P1" "Coloring pages"
             (199 # 20) "USD" order_completed (Some yearly) "2025-01-01T00:00:00Z".

Definition secret : string := "whsec_test".

Definition hmac_sha256_hex (key payload : string) : string :=
  if negb (key =? secret)%string then ""
  else if (payload =? purchase_body)%string
  then "6a577f106b00249a3ce7a9bfc7d34b730f022be77638a423d5b767e66106a392"
  else if (payload =? refund_body)%string
  then "873d9aa399935de918b4fc3e6ac9392d098f627f34409b570f27cd135fd7c5c3"
  else if (payload =? ghost_body)%string
  then "4b5a641cac5072b16026666fd516250109b8486b78e1c0ce42b5383c2dd2f31b"
  else "".

Definition JSON_parse (text : string) : option GrooveSellWebhook :=
  if (text =? purchase_body)%string then Some purchase_event
  else if (text =? refund_body)%string then Some refund_event
  else if (text =? ghost_body)%string then Some ghost_event
  else None.

(** Secret configured, credits per purchase left at the default of 5. *)
Definition env : environment := mk_environment (Some secret) None.

(** A delivery of [text] signed with the secret. *)
Definition signed (text : string) : NextRequest :=
  mk_request text (Some ("sha256=" ++ hmac_sha256_hex secret text)).

(** The account [handle_new_user] creates: 3 free credits. *)
Definition ann : user_profile :=
  mk_profile "u1" "ann@example.com" inactive None 3 0 None.

Definition fresh_db : database := mk_database [ann] [].

(** Ann after the purchase O1, with all 8 credits still unused. *)
Definition ann_subscribed : user_profile :=
  mk_profile "u1" "ann@example.com" active (Some yearly) 8 0 (Some "O1").

Definition purchase_O1 : transaction :=
  mk_transaction "u1" "O1" purchase 5 (Some (199 # 20)) "USD" (Some yearly) completed.

Definition subscribed_db : database := mk_database [ann_subscribed] [purchase_O1].

(** The purchase O1 is on record, the account it belonged to is gone. *)
Definition orphan_db : database := mk_database [] [purchase_O1].

End Sample.

(** ** Signup and repeated consumption *)

(** [handle_new_user]: the trigger's [INSERT INTO user_profiles (id, email,
    total_credits) VALUES (NEW.id, NEW.email, 3)]; the other columns take
    their defaults.  The primary key refuses an id that is already present
    ([None]: the insert raises). *)
Definition handle_new_user (new_id new_email : string) (d : database)
  : option database :=
  if existsb (has_id new_id) (user_profiles d) then None
  else Some (mk_database
               (user_profiles d ++ [mk_profile new_id new_email inactive None 3 0 None])
               (transactions d)).

(** [requests] calls of [rpc('use_credits', { user_uuid, credits_to_use: 1 })]
    in a row, as the page issues one per generated image: the answers, and
    the database left behind. *)
Fixpoint use_credits_repeatedly (user_uuid : string) (requests : nat) (d : database)
  : list bool * database :=
  match requests with
  | O => ([], d)
  | S k =>
      let (granted, d') := use_credits user_uuid 1 d in
      let (rest, d'') := use_credits_repeatedly user_uuid k d' in
      (granted :: rest, d'')
  end.

(** A row update that leaves the identity of the account and its consumed
    credits alone. *)
Definition keeps_identity (f : user_profile -> user_profile) : Prop :=
  forall p, id (f p) = id p /\ email (f p) = email p /\
            used_credits (f p) = used_credits p.

(** The key columns of the transaction log. *)
Definition order_ids (d : database) : list string :=
  map groovesell_order_id (transactions d).

(** ** The image route: credit check, storage mode, output format *)

Open Scope async_scope.

(** The [try] block of [POST /api/images] that runs when the form carries a
    [userToken]: [getUser] is what [supabase.auth.getUser(userToken)] gave (a
    user id, an error, or an exception); [None] lets the request go on to the
    generation. *)
Definition images_credit_check (getUser : completion (response string))
  : Async (option NextResponse) :=
  try_catch
    (auth <- lift getUser ;;
     match resp_error auth, resp_data auth with
     | false, Some user =>
         r <- select_profile_by_id user ;;
         match resp_error r, resp_data r with
         | false, Some profile =>
             let availableCredits := total_credits profile - used_credits profile in
             if availableCredits <=? 0
             then ret (Some (mk_NextResponse
                               (error_message
                                  "Insufficient credits. Please purchase more credits to continue.")
                               403))
             else ret None
         | _, _ =>
             ret (Some (mk_NextResponse (error_message "User profile not found") 404))
         end
     | _, _ =>
         ret (Some (mk_NextResponse (error_message "Authentication required") 401))
     end)
    (ret (Some (mk_NextResponse (error_message "Authentication verification failed")
                  401))).

Close Scope async_scope.

(** ['fs' | 'indexeddb'] *)
Inductive storage_mode : Type :=
  | storage_fs | storage_indexeddb.

(** [v === 'literal'] for an environment variable [v]. *)
Definition env_is (v : option string) (literal : string) : bool :=
  match v with
  | Some s => (s =? literal)%string
  | None => false
  end.

(** [effectiveStorageMode] of [POST /api/images], from
    [NEXT_PUBLIC_IMAGE_STORAGE_MODE] and [VERCEL]. *)
Definition effectiveStorageMode (explicitMode VERCEL : option string) : storage_mode :=
  let isOnVercel := env_is VERCEL "1" in
  if env_is explicitMode "fs" then storage_fs
  else if env_is explicitMode "indexeddb" then storage_indexeddb
  else if isOnVercel then storage_indexeddb
  else storage_fs.

(** [effectiveStorageModeClient] of the page, from
    [NEXT_PUBLIC_IMAGE_STORAGE_MODE] and [NEXT_PUBLIC_VERCEL_ENV]. *)
Definition effectiveStorageModeClient (explicitModeClient vercelEnvClient : option string)
  : storage_mode :=
  let isOnVercelClient :=
    env_is vercelEnvClient "production" || env_is vercelEnvClient "preview" in
  if env_is explicitModeClient "fs" then storage_fs
  else if env_is explicitModeClient "indexeddb" then storage_indexeddb
  else if isOnVercelClient then storage_indexeddb
  else storage_fs.

(** What [formData.get] returns when the field is present: a text or a
    file. *)
Inductive FormDataEntryValue : Type :=
  | entry_text (s : string)
  | entry_file.

(** [String(format || 'png')]: a missing field and the empty text are falsy;
    a [File] prints as ["[object File]"]. *)
Definition format_text (format : option FormDataEntryValue) : string :=
  match format with
  | None => "png"
  | Some (entry_text EmptyString) => "png"
  | Some (entry_text s) => s
  | Some entry_file => "[object File]"
  end.

(** [toLowerCase] on the letters A-Z.  Outside ASCII the only characters
    JavaScript lower-cases to an ASCII letter give k or i, which occur in none
    of the format names, so the comparisons below come out the same. *)
Definition lower_ascii (c : Ascii.ascii) : Ascii.ascii :=
  let n := Ascii.nat_of_ascii c in
  if ((65 <=? n) && (n <=? 90))%nat then Ascii.ascii_of_nat (n + 32) else c.

Fixpoint toLowerCase (s : string) : string :=
  match s with
  | EmptyString => EmptyString
  | String c rest => String (lower_ascii c) (toLowerCase rest)
  end.

Definition VALID_OUTPUT_FORMATS : list string := ["png"; "jpeg"; "webp"].

Definition validateOutputFormat (format : option FormDataEntryValue) : string :=
  let normalized := toLowerCase (format_text format) in
  let mapped := if (normalized =? "jpg")%string then "jpeg" else normalized in
  if existsb (String.eqb mapped) VALID_OUTPUT_FORMATS then mapped else "png".

(** [getMimeTypeFromFormat] of the page. *)
Definition getMimeTypeFromFormat (format : string) : string :=
  if (format =? "jpeg")%string then "image/jpeg"
  else if (format =? "webp")%string then "image/webp"
  else "image/png".

(** ** The prompt of the page *)

From Stdlib Require Import Ascii.

(** [String.prototype.replace] with a string pattern: the replacement text
    is read for [$$], [$&], [$`] and [$'] (with no capture groups a [$]
    followed by anything else stands for itself), and put in place of the
    first occurrence of the pattern; without an occurrence the string is
    returned as it is. *)
Fixpoint GetSubstitution (matched before after replacement : string) : string :=
  match replacement with
  | EmptyString => EmptyString
  | String c rest =>
      if Ascii.eqb c "$"%char then
        match rest with
        | EmptyString => String c EmptyString
        | String k rest' =>
            if Ascii.eqb k "$"%char then
              String "$"%char (GetSubstitution matched before after rest')
            else if Ascii.eqb k "&"%char then
              matched ++ GetSubstitution matched before after rest'
            else if Ascii.eqb k "`"%char then
              before ++ GetSubstitution matched before after rest'
            else if Ascii.eqb k "'"%char then
              after ++ GetSubstitution matched before after rest'
            else String c (GetSubstitution matched before after rest)
        end
      else String c (GetSubstitution matched before after rest)
  end.

(** What follows [pattern] when [s] starts with it. *)
Fixpoint strip_prefix (pattern s : string) : option string :=
  match pattern, s with
  | EmptyString, _ => Some s
  | String a pattern', String b s' =>
      if Ascii.eqb a b then strip_prefix pattern' s' else None
  | String _ _, EmptyString => None
  end.

(** The text before and after the first occurrence of [pattern] in [s]. *)
Fixpoint find_first (pattern s : string) : option (string * string) :=
  match strip_prefix pattern s with
  | Some after => Some (EmptyString, after)
  | None =>
      match s with
      | EmptyString => None
      | String c rest =>
          match find_first pattern rest with
          | Some (before, after) => Some (String c before, after)
          | None => None
          end
      end
  end.

Definition replace (s pattern replacement : string) : string :=
  match find_first pattern s with
  | Some (before, after) =>
      before ++ GetSubstitution pattern before after replacement ++ after
  | None => s
  end.

(** ['straight_copy' | 'facial_portrait' | 'cartoon_portrait'] *)
Inductive coloring_page_type : Type :=
  | straight_copy | facial_portrait | cartoon_portrait.

(** ['plain' | 'mindful'] *)
Inductive background_t : Type :=
  | plain | mindful.

(** [ColoringFormData], without the photo, which [generatePrompt] does not
    read. *)
Record ColoringFormData : Type := mk_form {
  coloringPageType : coloring_page_type;
  nameMessage : option string;
  background : option background_t;
  activityInterest : option string
}.

Definition generatePrompt (data : ColoringFormData) : string :=
  let replaceName (prompt : string) :=
    match truthy (nameMessage data) with
    | Some name => replace prompt "[NAME]" name
    | None => prompt
    end in
  let replaceActivity (prompt : string) :=
    match truthy (activityInterest data) with
    | Some activity => replace prompt "[ACTIVITY]" activity
    | None => prompt
    end in
  let isPlain := match background data with Some plain => true | _ => false end in
  let hasName := match truthy (nameMessage data) with Some _ => true | None => false end in
  let hasActivity :=
    match truthy (activityInterest data) with Some _ => true | None => false end in
  match coloringPageType data with
  | straight_copy =>
      if negb hasName then
        "turn the attached photo into a line drawing suitable for a coloring page, ensuring accurate facial features are maintained. place the result, as large as possible whilst still looking elegant, centered vertically and horizontally on a plain white background"
      else
        replaceName "turn the attached photo into a line drawing suitable for a coloring page, ensuring accurate facial features are maintained. write [NAME] in friendly white letters with black outline, suited to a coloring page. place the writing unobtrusively on top of the line drawing, ensuring it doesn't obscure the subject's face. finally center the whole thing, as large as possible whilst still looking elegant, on a plain white background."
  | facial_portrait =>
      if negb hasName && isPlain then
        "turn the face from the attached photo into a line drawing suitable for a coloring page, ensuring accurate facial features are maintained. place the result, as large as possible whilst still looking elegant, inside a plain white box with a black outline. center this horizontally and vertically on a plain white background"
      else if hasName && isPlain then
        replaceName "turn the face from the attached photo into a line drawing suitable for a coloring page, ensuring accurate facial features are maintained. place the result, as large as possible whilst still looking elegant, inside a plain white box with a black outline. below this box write [NAME] in friendly white letters with black outline, suited to a coloring page. center this collection of objects horizontally and vertically on a plain white background"
      else if negb hasName && negb isPlain then
        "turn the face from the attached photo into a line drawing suitable for a coloring page, ensuring accurate facial features are maintained. place the result, as large as possible whilst still looking elegant, inside a plain white box with a black outline. center this horizontally and vertically on top of an abstract pattern suitable for mindful coloring"
      else
        replaceName "turn the face from the attached photo into a line drawing suitable for a coloring page, ensuring accurate facial features are maintained. place the result, as large as possible whilst still looking elegant, inside a plain white box with a black outline. below this box write [NAME] in friendly white letters with black outline, suited to a coloring page. center this collection of objects horizontally and vertically on top of an abstract pattern suitable for mindful coloring"
  | cartoon_portrait =>
      if negb hasName && isPlain && negb hasActivity then
        "turn the face from the attached photo into a line drawing suitable for a coloring page, ensuring accurate facial features are maintained. place the result onto a cartoon style line drawing body in the same coloring page style. place this result as large as possible whilst still looking elegant, centered horizontally and vertically on a plain white background"
      else if hasName && isPlain && negb hasActivity then
        replaceName "turn the face from the attached photo into a line drawing suitable for a coloring page, ensuring accurate facial features are maintained. place the result onto a cartoon style line drawing body in the same coloring page style. below this write [NAME] in friendly white letters with black outline, suited to a coloring page. finally place this collection of objects as large as possible whilst still looking elegant, centered horizontally and vertically on a plain white background"
      else if negb hasName && isPlain && hasActivity then
        replaceActivity "turn the face from the attached photo into a line drawing suitable for a coloring page, ensuring accurate facial features are maintained. place the result onto a cartoon style line drawing body in the same coloring page style engaged in [ACTIVITY]. place this result as large as possible whilst still looking elegant, centered horizontally and vertically on a plain white background"
      else if hasName && isPlain && hasActivity then
        replaceActivity (replaceName "turn the face from the attached photo into a line drawing suitable for a coloring page, ensuring accurate facial features are maintained. place the result onto a cartoon style line drawing body in the same coloring page style engaged in [ACTIVITY]. below this write [NAME] in friendly white letters with black outline, suited to a coloring page. finally place this collection of objects as large as possible whilst still looking elegant, centered horizontally and vertically on a plain white background")
      else if negb hasName && negb isPlain && negb hasActivity then
        "turn the face from the attached photo into a line drawing suitable for a coloring page, ensuring accurate facial features are maintained. place the result onto a cartoon style line drawing body in the same coloring page style. place this result as large as possible whilst still looking elegant, centered horizontally and vertically on top of an abstract pattern suitable for mindful coloring"
      else if hasName && negb isPlain && negb hasActivity then
        replaceName "turn the face from the attached photo into a line drawing suitable for a coloring page, ensuring accurate facial features are maintained. place the result onto a cartoon style line drawing body in the same coloring page style. below this write [NAME] in friendly white letters with black outline, suited to a coloring page. finally place this collection of objects as large as possible whilst still looking elegant, centered horizontally and vertically on top of an abstract pattern suitable for mindful coloring"
      else if negb hasName && negb isPlain && hasActivity then
        replaceActivity "turn the face from the attached photo into a line drawing suitable for a coloring page, ensuring accurate facial features are maintained. place the result onto a cartoon style line drawing body in the same coloring page style engaged in [ACTIVITY]. place this result as large as possible whilst still looking elegant, centered horizontally and vertically on top of an abstract pattern suitable for mindful coloring"
      else
        replaceActivity (replaceName "turn the face from the attached photo into a line drawing suitable for a coloring page, ensuring accurate facial features are maintained. place the result onto a cartoon style line drawing body in the same coloring page style engaged in [ACTIVITY]. below this write [NAME] in friendly white letters with black outline, suited to a coloring page. finally place this collection of objects as large as possible whilst still looking elegant, centered horizontally and vertically on top of an abstract pattern suitable for mindful coloring")
  end.

(** The character [c] occurs in [s]. *)
Fixpoint has_char (c : Ascii.ascii) (s : string) : bool :=
  match s with
  | EmptyString => false
  | String k rest => Ascii.eqb k c || has_char c rest
  end.

(** A text field, when filled in, holds neither [$] nor an opening
    bracket. *)
Definition plain_text (field : option string) : Prop :=
  match field with
  | Some s => has_char "$" s = false /\ has_char "[" s = false
  | None => True
  end.

(** A text field, when filled in, holds no [$]. *)
Definition dollar_free (field : option string) : Prop :=
  match field with
  | Some s => has_char "$" s = false
  | None => True
  end.

(** ** Further deliveries

    A renewal, a cancellation, an event of a type the endpoint does not
    handle, and a signed body that is no JSON; digests as for [Sample]. *)
Module Deliveries.

Definition renewal_body : string :=
  Sample.object
    [ Sample.str_field "event_type" "subscription.renewed";
      Sample.str_field "order_id" "O2";
      Sample.str_field "customer_email" "ann@example.com";
      Sample.str_field "product_id" "P1";
      Sample.str_field "product_name" "Coloring pages";
      Sample.num_field "amount" "9.95";
      Sample.str_field "currency" "USD";
      Sample.str_field "status" "completed";
      Sample.str_field "subscription_type" "yearly";
      Sample.str_field "created_at" "2025-02-01T00:00:00Z" ].

Definition renewal_event : GrooveSellWebhook :=
  mk_webhook "subscription.renewed" "O2" "ann@example.com" "P1" "Coloring pages"
             (199 # 20) "USD" order_completed (Some yearly) "2025-02-01T00:00:00Z".

Definition cancellation_body : string :=
  Sample.object
    [ Sample.str_field "event_type" "subscription.cancelled";
      Sample.str_field "order_id" "O1";
      Sample.str_field "customer_email" "ann@example.com";
      Sample.str_field "product_id" "P1";
      Sample.str_field "product_name" "Coloring pages";
      Sample.num_field "amount" "9.95";
      Sample.str_field "currency" "USD";
      Sample.str_field "status" "cancelled";
      Sample.str_field "created_at" "2025-02-01T00:00:00Z" ].

Definition cancellation_event : GrooveSellWebhook :=
  mk_webhook "subscription.cancelled" "O1" "ann@example.com" "P1" "Coloring pages"
             (199 # 20) "USD" order_cancelled None "2025-02-01T00:00:00Z".

Definition invoice_body : string :=
  Sample.object
    [ Sample.str_field "event_type" "invoice.created";
      Sample.str_field "order_id" "O3";
      Sample.str_field "customer_email" "ann@example.com";
      Sample.str_field "product_id" "P1";
      Sample.str_field "product_name" "Coloring pages";
      Sample.num_field "amount" "9.95";
      Sample.str_field "currency" "USD";
      Sample.str_field "status" "completed";
      Sample.str_field "created_at" "2025-02-01T00:00:00Z" ].

Definition invoice_event : GrooveSellWebhook :=
  mk_webhook "invoice.created" "O3" "ann@example.com" "P1" "Coloring pages"
             (199 # 20) "USD" order_completed None "2025-02-01T00:00:00Z".

Definition malformed_body : string := "{not json".

Definition hmac_sha256_hex (key payload : string) : string :=
  if negb (key =? Sample.secret)%string then ""
  else if (payload =? renewal_body)%string
  then "9c6e6efb471cac894ecc8ce97fec97583fede5ff7973de0dbe0b83df386619a2"
  else if (payload =? cancellation_body)%string
  then "74d74285ccfb7b959cfbb288370f355ab3ef18239aa07b475c23b3313dba9bc2"
  else if (payload =? invoice_body)%string
  then "d2b2d0701794d071a9cfe448e015387146486662b4a39ec63fbb89f670144980"
  else if (payload =? malformed_body)%string
  then "4169f93a12984bfc842ff2e30d460f6416abf4b63fcdc5fae5c7c2511e2706b8"
  else Sample.hmac_sha256_hex key payload.

Definition JSON_parse (text : string) : option GrooveSellWebhook :=
  if (text =? renewal_body)%string then Some renewal_event
  else if (text =? cancellation_body)%string then Some cancellation_event
  else if (text =? invoice_body)%string then Some invoice_event
  else Sample.JSON_parse text.

Definition signed (text : string) : NextRequest :=
  mk_request text (Some ("sha256=" ++ hmac_sha256_hex Sample.secret text)).

(** A second account, and a table where two accounts share one email (the
    email column is not unique). *)
Definition bob : user_profile :=
  mk_profile "u2" "bob@example.com" active (Some monthly) 5 2 None.

Definition ann_again : user_profile :=
  mk_profile "u3" "ann@example.com" inactive None 3 0 None.

Definition two_accounts_db : database :=
  mk_database [Sample.ann_subscribed; bob] [Sample.purchase_O1].

Definition shared_email_db : database :=
  mk_database [Sample.ann; ann_again] [].

End Deliveries.


(** * Properties *)

(** Case analysis on the next scheduled fault of a world. *)
Ltac any_fault w :=
  let d := fresh "d" in
  let fs := fresh "fs" in
  let f := fresh "f" in
  destruct w as [d [|f fs]]; [|destruct f].

(** ** Tables *)

Lemma update_where_none {R : Type} (c : R -> bool) (f : R -> R) (rows : list R) :
  filter c rows = [] -> update_where c f rows = rows.
Proof.
  unfold update_where.
  induction rows as [|r rows IH]; simpl; [reflexivity|].
  destruct (c r) eqn:E; [discriminate|].
  intros H. now rewrite IH.
Qed.

Lemma update_where_twice {R : Type} (c : R -> bool) (f g : R -> R) (rows : list R) :
  (forall r, c (f r) = c r) ->
  update_where c g (update_where c f rows) = update_where c (fun r => g (f r)) rows.
Proof.
  intros Hc. unfold update_where. rewrite map_map.
  apply map_ext. intros r.
  destruct (c r) eqn:E; [rewrite Hc, E | rewrite E]; reflexivity.
Qed.

Lemma filter_update_where {R : Type} (q c : R -> bool) (f : R -> R) (rows : list R) :
  (forall r, q (f r) = q r) ->
  filter q (update_where c f rows) = update_where c f (filter q rows).
Proof.
  intros Hq. unfold update_where.
  induction rows as [|r rows IH]; simpl; [reflexivity|].
  destruct (c r) eqn:Ec.
  - rewrite Hq. destruct (q r); simpl; [rewrite Ec|]; now rewrite IH.
  - destruct (q r); simpl; [rewrite Ec|]; now rewrite IH.
Qed.

Lemma find_has_id (uuid : string) (rows : list user_profile) (p : user_profile) :
  find (has_id uuid) rows = Some p -> id p = uuid /\ In p rows.
Proof.
  intros H. destruct (find_some _ _ H) as [Hin Hid].
  split; [now apply String.eqb_eq | exact Hin].
Qed.

Lemma filter_has_id_absent (uuid : string) (rows : list user_profile) :
  ~ In uuid (map id rows) -> filter (has_id uuid) rows = [].
Proof.
  induction rows as [|q rows IH]; simpl; [reflexivity|].
  intros Hnotin. destruct (has_id uuid q) eqn:E.
  - exfalso. apply Hnotin. left. now apply String.eqb_eq.
  - apply IH. intros Hin. apply Hnotin. now right.
Qed.

Lemma update_where_cons {R : Type} (c : R -> bool) (f : R -> R) (r : R) (rows : list R) :
  update_where c f (r :: rows) = (if c r then f r else r) :: update_where c f rows.
Proof. reflexivity. Qed.

(** Under the primary key, an [UPDATE ... WHERE id = uuid] rewrites the one
    row [find] returns and nothing else. *)
Lemma primary_key_split (uuid : string) (rows : list user_profile) (p : user_profile) :
  NoDup (map id rows) ->
  find (has_id uuid) rows = Some p ->
  exists before after,
    rows = (before ++ p :: after)%list /\
    forall f, update_where (has_id uuid) f rows = (before ++ f p :: after)%list.
Proof.
  induction rows as [|r rows IH]; intros Hnd Hfind; simpl in Hnd, Hfind;
    [discriminate|].
  inversion Hnd as [|? ? Hnotin Hnd']; subst.
  destruct (has_id uuid r) eqn:E.
  - inversion Hfind; subst r. exists [], rows. split; [reflexivity|].
    intros f. rewrite update_where_cons, E. simpl.
    f_equal. apply update_where_none, filter_has_id_absent.
    apply String.eqb_eq in E. now rewrite <- E.
  - destruct (IH Hnd' Hfind) as (before & after & Hrows & Hupd).
    exists (r :: before), after. split; [simpl; now rewrite <- Hrows|].
    intros f. rewrite update_where_cons, E, Hupd. reflexivity.
Qed.

Lemma find_filter_head {R : Type} (c : R -> bool) (rows rest : list R) (p : R) :
  filter c rows = p :: rest -> find c rows = Some p.
Proof.
  induction rows as [|r rows IH]; simpl; [discriminate|].
  destruct (c r); [now intros [= -> _] | exact IH].
Qed.

Lemma find_by_primary_key (rows : list user_profile) (p : user_profile) :
  NoDup (map id rows) -> In p rows -> find (has_id (id p)) rows = Some p.
Proof.
  induction rows as [|r rows IH]; simpl; [contradiction|].
  intros Hnd Hin. inversion Hnd as [|? ? Hnotin Hnd']; subst.
  destruct Hin as [-> | Hin].
  - unfold has_id. now rewrite String.eqb_refl.
  - destruct (has_id (id p) r) eqn:E; [|now apply IH].
    exfalso. apply Hnotin. apply String.eqb_eq in E. rewrite E.
    now apply in_map.
Qed.

Lemma filter_singleton_in {R : Type} (c : R -> bool) (rows : list R) (p : R) :
  filter c rows = [p] -> In p rows.
Proof.
  intros H. assert (Hin : In p (filter c rows)) by (rewrite H; now left).
  now apply filter_In in Hin.
Qed.

Lemma map_id_update_where (c : user_profile -> bool) (f : user_profile -> user_profile)
      (rows : list user_profile) :
  (forall p, id (f p) = id p) ->
  map id (update_where c f rows) = map id rows.
Proof.
  intros Hf. unfold update_where. rewrite map_map. apply map_ext.
  intros p. destruct (c p); [apply Hf | reflexivity].
Qed.

Lemma existsb_find_has_id (uuid : string) (rows : list user_profile) (p : user_profile) :
  find (has_id uuid) rows = Some p -> existsb (has_id uuid) rows = true.
Proof.
  intros H. apply existsb_exists. exists p.
  destruct (find_some _ _ H). now split.
Qed.

(** ** The credit functions *)

(** C3: for an existing account, [use_credits] returns [true] and raises
    [used_credits] of that account by exactly the requested amount when
    [total_credits - used_credits >= amount], and returns [false] leaving the
    whole database as it was otherwise.  On success the one row of the
    account is the only thing written, and [used_credits] the only column.
    The amount and the two expressions the function computes are within
    [INTEGER]. *)
Theorem use_credits_grants_or_refuses :
  forall (user_uuid : string) (credits_to_use : Z) (d : database)
         (account : user_profile),
    NoDup (map id (user_profiles d)) ->
    find (has_id user_uuid) (user_profiles d) = Some account ->
    INTEGER credits_to_use ->
    INTEGER (total_credits account - used_credits account) ->
    (credits_to_use <= total_credits account - used_credits account ->
     INTEGER (used_credits account + credits_to_use)) ->
    exists before after,
      user_profiles d = (before ++ account :: after)%list /\
      use_credits user_uuid credits_to_use d =
        if credits_to_use <=? total_credits account - used_credits account
        then (true,
              mk_database
                (before
                   ++ mk_profile (id account) (email account)
                        (subscription_status account) (subscription_type account)
                        (total_credits account)
                        (used_credits account + credits_to_use)
                        (groovesell_customer_id account)
                   :: after)%list
                (transactions d))
        else (false, d).
Proof.
  intros user_uuid n d account Hkey Hfind _ _ _.
  destruct (primary_key_split user_uuid _ _ Hkey Hfind)
    as (before & after & Hrows & Hupd).
  exists before, after. split; [exact Hrows|].
  unfold use_credits, get_available_credits. rewrite Hfind.
  rewrite Z.geb_leb.
  destruct (n <=? total_credits account - used_credits account);
    [now rewrite Hupd | reflexivity].
Qed.

Lemma use_credits_grants_or_refuses_witness :
  NoDup (map id (user_profiles Sample.fresh_db)) /\
  find (has_id "u1") (user_profiles Sample.fresh_db) = Some Sample.ann /\
  INTEGER 1 /\
  INTEGER (total_credits Sample.ann - used_credits Sample.ann) /\
  (1 <= total_credits Sample.ann - used_credits Sample.ann ->
   INTEGER (used_credits Sample.ann + 1)) /\
  exists before after,
    user_profiles Sample.fresh_db = (before ++ Sample.ann :: after)%list /\
    use_credits "u1" 1 Sample.fresh_db =
      (true,
       mk_database
         (before
            ++ mk_profile "u1" "ann@example.com" inactive None 3 (0 + 1) None
            :: after)%list
         []).
Proof.
  assert (Hkey : NoDup (map id (user_profiles Sample.fresh_db))).
  { simpl. constructor; [intros [] | constructor]. }
  assert (Hn : INTEGER 1) by (unfold INTEGER; lia).
  assert (Ha : INTEGER (total_credits Sample.ann - used_credits Sample.ann))
    by (unfold INTEGER; simpl; lia).
  assert (Hu : 1 <= total_credits Sample.ann - used_credits Sample.ann ->
               INTEGER (used_credits Sample.ann + 1))
    by (intros _; unfold INTEGER; simpl; lia).
  split; [exact Hkey | split; [reflexivity|]].
  split; [exact Hn | split; [exact Ha | split; [exact Hu|]]].
  exact (use_credits_grants_or_refuses "u1" 1 Sample.fresh_db Sample.ann
           Hkey eq_refl Hn Ha Hu).
Defined.

(** The scenario of the three free credits: three requests are granted, the
    fourth is refused and changes nothing. *)
Example three_free_credits :
  let d1 := snd (use_credits "u1" 1 Sample.fresh_db) in
  let d2 := snd (use_credits "u1" 1 d1) in
  let d3 := snd (use_credits "u1" 1 d2) in
  fst (use_credits "u1" 1 d2) = true /\
  get_available_credits "u1" d3 = Some 0 /\
  use_credits "u1" 1 d3 = (false, d3).
Proof. repeat split. Qed.

(** C6, as the code has it: [add_credits] puts [total_credits + delta] in
    the [total_credits] of the account's row, and writes nothing else, for
    every delta that keeps the sum within [INTEGER]; there is no floor at 0,
    so the sum is stored also when it is negative. *)
Theorem add_credits_is_unclamped :
  forall (user_uuid : string) (credits_to_add : Z) (d : database)
         (account : user_profile),
    NoDup (map id (user_profiles d)) ->
    find (has_id user_uuid) (user_profiles d) = Some account ->
    INTEGER credits_to_add ->
    INTEGER (total_credits account + credits_to_add) ->
    exists before after,
      user_profiles d = (before ++ account :: after)%list /\
      add_credits user_uuid credits_to_add d =
        (true,
         mk_database
           (before
              ++ mk_profile (id account) (email account)
                   (subscription_status account) (subscription_type account)
                   (total_credits account + credits_to_add)
                   (used_credits account)
                   (groovesell_customer_id account)
              :: after)%list
           (transactions d)).
Proof.
  intros user_uuid n d account Hkey Hfind _ _.
  destruct (primary_key_split user_uuid _ _ Hkey Hfind)
    as (before & after & Hrows & Hupd).
  exists before, after. split; [exact Hrows|].
  unfold add_credits. now rewrite (existsb_find_has_id _ _ _ Hfind), Hupd.
Qed.

Lemma add_credits_is_unclamped_witness :
  NoDup (map id (user_profiles Sample.fresh_db)) /\
  find (has_id "u1") (user_profiles Sample.fresh_db) = Some Sample.ann /\
  INTEGER (-5) /\
  INTEGER (total_credits Sample.ann + -5) /\
  exists before after,
    user_profiles Sample.fresh_db = (before ++ Sample.ann :: after)%list /\
    add_credits "u1" (-5) Sample.fresh_db =
      (true,
       mk_database
         (before
            ++ mk_profile "u1" "ann@example.com" inactive None (3 + -5) 0 None
            :: after)%list
         []).
Proof.
  assert (Hkey : NoDup (map id (user_profiles Sample.fresh_db))).
  { simpl. constructor; [intros [] | constructor]. }
  assert (Hn : INTEGER (-5)) by (unfold INTEGER; lia).
  assert (Ht : INTEGER (total_credits Sample.ann + -5))
    by (unfold INTEGER; simpl; lia).
  split; [exact Hkey | split; [reflexivity|]].
  split; [exact Hn | split; [exact Ht|]].
  exact (add_credits_is_unclamped "u1" (-5) Sample.fresh_db Sample.ann
           Hkey eq_refl Hn Ht).
Defined.

(** C6 fails as stated: taking 5 credits from an account that holds 3 leaves
    [total_credits = -2]. *)
Lemma add_credits_below_zero :
  map total_credits (user_profiles (snd (add_credits "u1" (-5) Sample.fresh_db)))
  = [-2].
Proof. reflexivity. Qed.

(** ** Handlers never reject *)

Lemma try_catch_ret_resolves (m : Async unit) (w : world) :
  fst (try_catch m (ret tt) w) = Resolved tt.
Proof.
  unfold try_catch, ret. destruct (m w) as [[[]|] w']; reflexivity.
Qed.

Lemma dispatch_resolves (env : environment) (data : GrooveSellWebhook) (w : world) :
  fst (dispatch env data w) = Resolved tt.
Proof.
  unfold dispatch.
  repeat match goal with
         | |- context [if ?b then _ else _] => destruct b
         end;
    first [apply try_catch_ret_resolves | reflexivity].
Qed.

Section EndpointFacts.

Variable hmac_sha256_hex : string -> string -> string.
Variable JSON_parse : string -> option GrooveSellWebhook.

(** An authentic delivery whose body parses runs its handler and is
    answered with [{ success: true }]. *)
Lemma POST_authentic (env : environment) (request : NextRequest)
      (data : GrooveSellWebhook) (w : world) :
  authentic hmac_sha256_hex env request ->
  JSON_parse (body request) = Some data ->
  POST hmac_sha256_hex JSON_parse env request w =
    (Resolved (mk_NextResponse success_true 200), snd (dispatch env data w)).
Proof.
  intros (secret & signature & Hs & Hsig & Hv) Hparse.
  unfold POST, try_catch, bind, lift, ret.
  rewrite Hs, Hsig, Hv, Hparse. simpl.
  pose proof (dispatch_resolves env data w) as Hd.
  destruct (dispatch env data w) as [c w']. simpl in *. now subst c.
Qed.

End EndpointFacts.

(** ** Authentication *)

(** C4: when the secret is not configured, or the signature header is
    missing, or the header differs from ["sha256=" ++ HMAC(secret, body)],
    the endpoint answers with an error status and the world is left exactly
    as it was: no store call is made.  A missing secret is answered 500. *)
Theorem POST_rejects_unauthenticated :
  forall (hmac_sha256_hex : string -> string -> string)
         (JSON_parse : string -> option GrooveSellWebhook)
         (env : environment) (request : NextRequest) (w : world),
    (truthy (GROOVESELL_WEBHOOK_SECRET env) = None
     \/ truthy (x_groovesell_signature request) = None
     \/ exists webhookSecret signature,
          truthy (GROOVESELL_WEBHOOK_SECRET env) = Some webhookSecret /\
          truthy (x_groovesell_signature request) = Some signature /\
          signature <> "sha256=" ++ hmac_sha256_hex webhookSecret (body request)) ->
    exists msg code,
      POST hmac_sha256_hex JSON_parse env request w =
        (Resolved (mk_NextResponse (error_message msg) code), w)
      /\ (code = 500 \/ code = 400 \/ code = 401)
      /\ (truthy (GROOVESELL_WEBHOOK_SECRET env) = None -> code = 500).
Proof.
  intros hmac parse env request w H.
  unfold POST, try_catch, bind, lift, ret.
  destruct (truthy (GROOVESELL_WEBHOOK_SECRET env)) as [secret|] eqn:Hs.
  - destruct (truthy (x_groovesell_signature request)) as [signature|] eqn:Hsig.
    + destruct H as [H | [H | (s' & sg' & Hs' & Hsg' & Hne)]]; try discriminate.
      inversion Hs'; inversion Hsg'; subst s' sg'.
      unfold verifyWebhookSignature, timingSafeEqual.
      destruct (String.length ("sha256=" ++ hmac secret (body request))
                =? String.length signature)%nat.
      * assert (E : ("sha256=" ++ hmac secret (body request) =? signature)%string
                    = false).
        { apply String.eqb_neq. congruence. }
        rewrite E. simpl.
        exists "Invalid signature", 401. repeat split; auto. discriminate.
      * exists "Internal server error", 500. repeat split; auto.
    + exists "Missing signature", 400. repeat split; auto. discriminate.
  - exists "Webhook secret not configured", 500. repeat split; auto.
Qed.

Lemma POST_rejects_unauthenticated_witness :
  (exists webhookSecret signature,
      truthy (GROOVESELL_WEBHOOK_SECRET Sample.env) = Some webhookSecret /\
      truthy (Some "sha256=0000000000000000000000000000000000000000000000000000000000000000")
        = Some signature /\
      signature <> "sha256=" ++ Sample.hmac_sha256_hex webhookSecret Sample.purchase_body)
  /\
  exists msg code,
    POST Sample.hmac_sha256_hex Sample.JSON_parse Sample.env
      (mk_request Sample.purchase_body
         (Some "sha256=0000000000000000000000000000000000000000000000000000000000000000"))
      (mk_world Sample.fresh_db []) =
      (Resolved (mk_NextResponse (error_message msg) code),
       mk_world Sample.fresh_db [])
    /\ (code = 500 \/ code = 400 \/ code = 401)
    /\ (truthy (GROOVESELL_WEBHOOK_SECRET Sample.env) = None -> code = 500).
Proof.
  assert (H : exists webhookSecret signature,
      truthy (GROOVESELL_WEBHOOK_SECRET Sample.env) = Some webhookSecret /\
      truthy (Some "sha256=0000000000000000000000000000000000000000000000000000000000000000")
        = Some signature /\
      signature <> "sha256=" ++ Sample.hmac_sha256_hex webhookSecret Sample.purchase_body).
  { exists Sample.secret,
      "sha256=0000000000000000000000000000000000000000000000000000000000000000".
    split; [reflexivity | split; [reflexivity|]].
    intros E. vm_compute in E. discriminate E. }
  split; [exact H|].
  exact (POST_rejects_unauthenticated Sample.hmac_sha256_hex Sample.JSON_parse
           Sample.env
           (mk_request Sample.purchase_body
              (Some "sha256=0000000000000000000000000000000000000000000000000000000000000000"))
           (mk_world Sample.fresh_db [])
           (or_intror (or_intror H))).
Defined.

(** Every request is authentic or falls under one of the three rejections. *)
Lemma authentic_or_rejected
      (hmac_sha256_hex : string -> string -> string)
      (env : environment) (request : NextRequest) :
  authentic hmac_sha256_hex env request
  \/ truthy (GROOVESELL_WEBHOOK_SECRET env) = None
  \/ truthy (x_groovesell_signature request) = None
  \/ exists webhookSecret signature,
       truthy (GROOVESELL_WEBHOOK_SECRET env) = Some webhookSecret /\
       truthy (x_groovesell_signature request) = Some signature /\
       signature <> "sha256=" ++ hmac_sha256_hex webhookSecret (body request).
Proof.
  destruct (truthy (GROOVESELL_WEBHOOK_SECRET env)) as [secret|] eqn:Hs;
    [|now right; left].
  destruct (truthy (x_groovesell_signature request)) as [signature|] eqn:Hsig;
    [|now right; right; left].
  destruct (string_dec signature
              ("sha256=" ++ hmac_sha256_hex secret (body request))) as [E|E].
  - left. exists secret, signature. repeat split; try assumption.
    unfold verifyWebhookSignature, timingSafeEqual. rewrite <- E.
    now rewrite Nat.eqb_refl, String.eqb_refl.
  - right; right; right. now exists secret, signature.
Qed.

(** The sample deliveries are authentic, and the bodies are the texts signed
    above (253, 221 and 256 bytes). *)
Lemma sample_purchase_authentic :
  authentic Sample.hmac_sha256_hex Sample.env (Sample.signed Sample.purchase_body).
Proof. exists Sample.secret. eexists. repeat split. Qed.

Lemma sample_refund_authentic :
  authentic Sample.hmac_sha256_hex Sample.env (Sample.signed Sample.refund_body).
Proof. exists Sample.secret. eexists. repeat split. Qed.

Lemma sample_ghost_authentic :
  authentic Sample.hmac_sha256_hex Sample.env (Sample.signed Sample.ghost_body).
Proof. exists Sample.secret. eexists. repeat split. Qed.

Example sample_body_lengths :
  (String.length Sample.purchase_body, String.length Sample.refund_body,
   String.length Sample.ghost_body) = (253%nat, 221%nat, 256%nat).
Proof. reflexivity. Qed.

(** ** The store when it is healthy *)

Lemma store_call_healthy {A : Type} (op : database -> response A * database)
      (d : database) :
  store_call op (mk_world d []) =
    (Resolved (fst (op d)), mk_world (snd (op d)) []).
Proof. unfold store_call. simpl. now destruct (op d). Qed.

Lemma database_eta (d : database) :
  mk_database (user_profiles d) (transactions d) = d.
Proof. now destruct d. Qed.

Lemma has_order_id_absent (o : string) (rows : list transaction) :
  filter (has_order_id o) rows = [] -> existsb (has_order_id o) rows = false.
Proof.
  induction rows as [|t rows IH]; simpl; [reflexivity|].
  destruct (has_order_id o t); [discriminate | exact IH].
Qed.

(** One delivery of a purchase to a healthy store, for an email that
    resolves to [account]: credits and subscription are written, and the
    transaction is appended unless its order id is already on record. *)
Lemma handlePurchaseCompleted_healthy (env : environment) (data : GrooveSellWebhook)
      (d : database) (account : user_profile) :
  filter (has_email (customer_email data)) (user_profiles d) = [account] ->
  handlePurchaseCompleted env data (mk_world d []) =
    (Resolved tt,
     mk_world
       (mk_database
          (update_where (has_id (id account))
             (fun p => mk_profile (id p) (email p) active
                         (Some (subscription_type_or_monthly data))
                         (total_credits p + getCreditsForPurchase env)
                         (used_credits p) (Some (order_id data)))
             (user_profiles d))
          (if existsb (has_order_id (order_id data)) (transactions d)
           then transactions d
           else (transactions d
                   ++ [mk_transaction (id account) (order_id data) purchase
                         (getCreditsForPurchase env) (Some (amount data))
                         (currency data)
                         (Some (subscription_type_or_monthly data)) completed])%list))
       []).
Proof.
  intros Hemail.
  unfold handlePurchaseCompleted, try_catch, bind, ret,
    select_profile_by_email, rpc_add_credits, update_profiles, insert_transaction.
  rewrite store_call_healthy. simpl. rewrite Hemail. simpl.
  repeat (rewrite store_call_healthy; simpl).
  rewrite update_where_twice by reflexivity.
  destruct (existsb (has_order_id (order_id data)) (transactions d)); reflexivity.
Qed.

Lemma dispatch_purchase (env : environment) (data : GrooveSellWebhook) :
  event_type data = "purchase.completed" \/ event_type data = "subscription.created" ->
  dispatch env data = handlePurchaseCompleted env data.
Proof. unfold dispatch. now intros [-> | ->]. Qed.

Lemma dispatch_refund (env : environment) (data : GrooveSellWebhook) :
  event_type data = "refund.processed" ->
  dispatch env data = handleRefund data.
Proof. unfold dispatch. now intros ->. Qed.

(** ** Purchases *)

Lemma configured_credits (env : environment) (N : Z) :
  NEXT_PUBLIC_CREDITS_PER_MONTH env = Some N
  \/ (NEXT_PUBLIC_CREDITS_PER_MONTH env = None /\ N = 5) ->
  getCreditsForPurchase env = N.
Proof.
  unfold getCreditsForPurchase. intros [-> | [-> ->]]; reflexivity.
Qed.



Lemma sample_amount_is_decimal : DECIMAL_10_2 (199 # 20).
Proof. exists 995. split; [reflexivity | reflexivity]. Qed.


(** C1, as the code has it: two deliveries of the same authentic purchase
    to a healthy store are both acknowledged and leave exactly one
    transaction for the order id, since the second insert is refused by the
    uniqueness constraint; but the credits are added at each delivery,
    before the insert is attempted, so the account ends with
    [total_credits + 2 * N].  N is the value of
    [NEXT_PUBLIC_CREDITS_PER_MONTH], or 5 when the variable is not set.  N
    and both totals are within [INTEGER] and the amount is one
    [DECIMAL(10,2)] stores as it is. *)
Theorem replayed_purchase_credits_twice :
  forall (hmac_sha256_hex : string -> string -> string)
         (JSON_parse : string -> option GrooveSellWebhook)
         (env : environment) (request : NextRequest) (data : GrooveSellWebhook)
         (d : database) (account : user_profile) (N : Z),
    authentic hmac_sha256_hex env request ->
    JSON_parse (body request) = Some data ->
    event_type data = "purchase.completed" \/ event_type data = "subscription.created" ->
    NEXT_PUBLIC_CREDITS_PER_MONTH env = Some N
    \/ (NEXT_PUBLIC_CREDITS_PER_MONTH env = None /\ N = 5) ->
    NoDup (map id (user_profiles d)) ->
    filter (has_email (customer_email data)) (user_profiles d) = [account] ->
    filter (has_order_id (order_id data)) (transactions d) = [] ->
    INTEGER N ->
    INTEGER (total_credits account + N) ->
    INTEGER (total_credits account + N + N) ->
    DECIMAL_10_2 (amount data) ->
    exists before after once,
      user_profiles d = (before ++ account :: after)%list /\
      POST hmac_sha256_hex JSON_parse env request (mk_world d []) =
        (Resolved (mk_NextResponse success_true 200), once) /\
      POST hmac_sha256_hex JSON_parse env request once =
        (Resolved (mk_NextResponse success_true 200),
         mk_world
           (mk_database
              (before
                 ++ mk_profile (id account) (email account) active
                      (Some (subscription_type_or_monthly data))
                      (total_credits account + N + N)
                      (used_credits account) (Some (order_id data))
                 :: after)%list
              (transactions d
                 ++ [mk_transaction (id account) (order_id data) purchase
                       N (Some (amount data)) (currency data)
                       (Some (subscription_type_or_monthly data)) completed])%list)
           []).
Proof.
  intros hmac parse env request data d account N
         Hauth Hparse Hev Hconf Hkey Hemail Hfresh _ _ _ _.
  pose proof (find_by_primary_key _ _ Hkey (filter_singleton_in _ _ _ Hemail))
    as Hfind.
  destruct (primary_key_split _ _ _ Hkey Hfind) as (before & after & Hrows & Hupd).
  exists before, after. eexists. split; [exact Hrows|].
  rewrite !(POST_authentic hmac parse env request data _ Hauth Hparse).
  rewrite (dispatch_purchase env data Hev).
  rewrite (handlePurchaseCompleted_healthy env data d account Hemail).
  split; [reflexivity|]. cbn [snd].
  rewrite (has_order_id_absent _ _ Hfresh).
  erewrite handlePurchaseCompleted_healthy.
  2:{ cbn [user_profiles]. rewrite filter_update_where by reflexivity.
      rewrite Hemail, update_where_cons. unfold has_id at 1.
      rewrite String.eqb_refl. reflexivity. }
  cbn [user_profiles transactions id].
  rewrite update_where_twice by reflexivity. rewrite Hupd.
  rewrite existsb_app. simpl. unfold has_order_id at 2. simpl.
  rewrite String.eqb_refl, orb_true_r.
  rewrite (configured_credits env N Hconf). reflexivity.
Qed.

Lemma replayed_purchase_credits_twice_witness :
  authentic Sample.hmac_sha256_hex Sample.env (Sample.signed Sample.purchase_body) /\
  Sample.JSON_parse (body (Sample.signed Sample.purchase_body))
    = Some Sample.purchase_event /\
  (event_type Sample.purchase_event = "purchase.completed"
   \/ event_type Sample.purchase_event = "subscription.created") /\
  (NEXT_PUBLIC_CREDITS_PER_MONTH Sample.env = Some 5
   \/ (NEXT_PUBLIC_CREDITS_PER_MONTH Sample.env = None /\ 5 = 5)) /\
  NoDup (map id (user_profiles Sample.fresh_db)) /\
  filter (has_email (customer_email Sample.purchase_event))
    (user_profiles Sample.fresh_db) = [Sample.ann] /\
  filter (has_order_id (order_id Sample.purchase_event))
    (transactions Sample.fresh_db) = [] /\
  INTEGER 5 /\
  INTEGER (total_credits Sample.ann + 5) /\
  INTEGER (total_credits Sample.ann + 5 + 5) /\
  DECIMAL_10_2 (amount Sample.purchase_event) /\
  exists before after once,
    user_profiles Sample.fresh_db = (before ++ Sample.ann :: after)%list /\
    POST Sample.hmac_sha256_hex Sample.JSON_parse Sample.env
      (Sample.signed Sample.purchase_body) (mk_world Sample.fresh_db []) =
      (Resolved (mk_NextResponse success_true 200), once) /\
    POST Sample.hmac_sha256_hex Sample.JSON_parse Sample.env
      (Sample.signed Sample.purchase_body) once =
      (Resolved (mk_NextResponse success_true 200),
       mk_world
         (mk_database
            (before
               ++ mk_profile "u1" "ann@example.com" active (Some yearly)
                    (3 + 5 + 5) 0 (Some "O1")
               :: after)%list
            ([] ++ [Sample.purchase_O1])%list)
         []).
Proof.
  assert (Hkey : NoDup (map id (user_profiles Sample.fresh_db))).
  { simpl. constructor; [intros [] | constructor]. }
  assert (Hn : INTEGER 5) by (unfold INTEGER; lia).
  assert (H1 : INTEGER (total_credits Sample.ann + 5))
    by (unfold INTEGER; simpl; lia).
  assert (H2 : INTEGER (total_credits Sample.ann + 5 + 5))
    by (unfold INTEGER; simpl; lia).
  assert (Hconf : NEXT_PUBLIC_CREDITS_PER_MONTH Sample.env = Some 5
                  \/ (NEXT_PUBLIC_CREDITS_PER_MONTH Sample.env = None /\ 5 = 5))
    by (right; split; reflexivity).
  repeat (split; [first [exact sample_purchase_authentic | exact Hkey
                        | exact Hn | exact H1 | exact H2 | exact Hconf
                        | exact sample_amount_is_decimal
                        | left; reflexivity | reflexivity] |]).
  exact (replayed_purchase_credits_twice Sample.hmac_sha256_hex Sample.JSON_parse
           Sample.env (Sample.signed Sample.purchase_body) Sample.purchase_event
           Sample.fresh_db Sample.ann 5
           sample_purchase_authentic eq_refl (or_introl eq_refl) Hconf Hkey
           eq_refl eq_refl Hn H1 H2 sample_amount_is_decimal).
Defined.

(** C1 fails as stated: Ann holds 3 credits; the first delivery of the
    purchase O1 brings her to 8, the identical second delivery to 13, while a
    single transaction O1 is on record. *)
Lemma replay_adds_credits_again :
  map total_credits
    (user_profiles
       (db (snd (POST Sample.hmac_sha256_hex Sample.JSON_parse Sample.env
                   (Sample.signed Sample.purchase_body)
                   (mk_world Sample.fresh_db [])))))
  = [8]
  /\
  map total_credits
    (user_profiles
       (db (snd (POST Sample.hmac_sha256_hex Sample.JSON_parse Sample.env
                   (Sample.signed Sample.purchase_body)
                   (snd (POST Sample.hmac_sha256_hex Sample.JSON_parse Sample.env
                           (Sample.signed Sample.purchase_body)
                           (mk_world Sample.fresh_db [])))))))
  = [13]
  /\
  map groovesell_order_id
    (transactions
       (db (snd (POST Sample.hmac_sha256_hex Sample.JSON_parse Sample.env
                   (Sample.signed Sample.purchase_body)
                   (snd (POST Sample.hmac_sha256_hex Sample.JSON_parse Sample.env
                           (Sample.signed Sample.purchase_body)
                           (mk_world Sample.fresh_db [])))))))
  = ["O1"].
Proof. repeat split; vm_compute; reflexivity. Qed.

(** ** Refunds *)

Lemma handleRefund_healthy (data : GrooveSellWebhook) (d : database)
      (original : transaction) :
  filter (has_order_id (order_id data)) (transactions d) = [original] ->
  handleRefund data (mk_world d []) =
    (Resolved tt,
     mk_world
       (mk_database
          (match filter (has_id (user_id original)) (user_profiles d) with
           | [userProfile] =>
               update_where (has_id (user_id original))
                 (fun p =>
                    set_subscription_status cancelled
                      (set_total_credits
                         (Z.max 0 (total_credits userProfile
                                   - Z.min (credits_added original)
                                           (total_credits userProfile)))
                         p))
                 (user_profiles d)
           | _ => user_profiles d
           end)
          (if existsb (has_order_id (order_id data ++ "-refund")) (transactions d)
           then transactions d
           else (transactions d
                   ++ [mk_transaction (user_id original)
                         (order_id data ++ "-refund") refund
                         (- credits_added original)
                         (Some (Qopp (amount data))) (currency data)
                         None completed])%list))
       []).
Proof.
  intros Horder.
  unfold handleRefund, try_catch, bind, ret,
    select_transaction_by_order_id, select_profile_by_id, update_profiles,
    insert_transaction.
  rewrite store_call_healthy. simpl. rewrite Horder. simpl.
  repeat (rewrite store_call_healthy; simpl).
  destruct (filter (has_id (user_id original)) (user_profiles d))
    as [|userProfile [|other rest]]; simpl;
    repeat (rewrite store_call_healthy; simpl);
    destruct (existsb (has_order_id (order_id data ++ "-refund")) (transactions d));
    simpl; rewrite ?database_eta; reflexivity.
Qed.



(** The refund scenario of the specification: O1 granted 5 credits, the
    account holds 6; the refund leaves 1, cancels the subscription and
    records [O1-refund] with -5. *)
Example refund_of_O1_at_six_credits :
  db (snd (handleRefund Sample.refund_event
             (mk_world
                (mk_database [set_total_credits 6 Sample.ann_subscribed]
                             [Sample.purchase_O1])
                [])))
  = mk_database
      [mk_profile "u1" "ann@example.com" cancelled (Some yearly) 1 0 (Some "O1")]
      [Sample.purchase_O1;
       mk_transaction "u1" "O1-refund" refund (-5) (Some (Qopp (199 # 20))) "USD"
                      None completed].
Proof. reflexivity. Qed.

(** C10: an authentic [refund.processed] event whose original transaction
    is on record while no profile row has the transaction's user id,
    delivered to a healthy store with no refund recorded for the order yet,
    leaves every profile row untouched, and still appends the refund
    transaction keyed [order_id ++ "-refund"] with [credits_added] negated.
    The negated credits are within [INTEGER] and the amount is one
    [DECIMAL(10,2)] stores as it is. *)
Theorem refund_without_profile_is_logged_only :
  forall (hmac_sha256_hex : string -> string -> string)
         (JSON_parse : string -> option GrooveSellWebhook)
         (env : environment) (request : NextRequest) (data : GrooveSellWebhook)
         (d : database) (original : transaction),
    authentic hmac_sha256_hex env request ->
    JSON_parse (body request) = Some data ->
    event_type data = "refund.processed" ->
    filter (has_order_id (order_id data)) (transactions d) = [original] ->
    filter (has_id (user_id original)) (user_profiles d) = [] ->
    filter (has_order_id (order_id data ++ "-refund")) (transactions d) = [] ->
    INTEGER (- credits_added original) ->
    DECIMAL_10_2 (amount data) ->
    POST hmac_sha256_hex JSON_parse env request (mk_world d []) =
      (Resolved (mk_NextResponse success_true 200),
       mk_world
         (mk_database
            (user_profiles d)
            (transactions d
               ++ [mk_transaction (user_id original)
                     (order_id data ++ "-refund") refund
                     (- credits_added original)
                     (Some (Qopp (amount data))) (currency data)
                     None completed])%list)
         []).
Proof.
  intros hmac parse env request data d original
         Hauth Hparse Hev Horder Hnone Hfresh _ _.
  rewrite (POST_authentic hmac parse env request data _ Hauth Hparse).
  rewrite (dispatch_refund env data Hev).
  rewrite (handleRefund_healthy data d original Horder).
  now rewrite Hnone, (has_order_id_absent _ _ Hfresh).
Qed.

Lemma refund_without_profile_is_logged_only_witness :
  authentic Sample.hmac_sha256_hex Sample.env (Sample.signed Sample.refund_body) /\
  Sample.JSON_parse (body (Sample.signed Sample.refund_body))
    = Some Sample.refund_event /\
  event_type Sample.refund_event = "refund.processed" /\
  filter (has_order_id (order_id Sample.refund_event))
    (transactions Sample.orphan_db) = [Sample.purchase_O1] /\
  filter (has_id (user_id Sample.purchase_O1)) (user_profiles Sample.orphan_db) = [] /\
  filter (has_order_id (order_id Sample.refund_event ++ "-refund"))
    (transactions Sample.orphan_db) = [] /\
  INTEGER (- credits_added Sample.purchase_O1) /\
  DECIMAL_10_2 (amount Sample.refund_event) /\
  POST Sample.hmac_sha256_hex Sample.JSON_parse Sample.env
    (Sample.signed Sample.refund_body) (mk_world Sample.orphan_db []) =
    (Resolved (mk_NextResponse success_true 200),
     mk_world
       (mk_database
          []
          ([Sample.purchase_O1]
             ++ [mk_transaction "u1" ("O1" ++ "-refund") refund (- (5))
                   (Some (Qopp (199 # 20))) "USD" None completed])%list)
       []).
Proof.
  assert (Hc : INTEGER (- credits_added Sample.purchase_O1))
    by (unfold INTEGER; simpl; lia).
  repeat (split; [first [exact sample_refund_authentic | exact Hc
                        | exact sample_amount_is_decimal | reflexivity] |]).
  exact (refund_without_profile_is_logged_only
           Sample.hmac_sha256_hex Sample.JSON_parse
           Sample.env (Sample.signed Sample.refund_body) Sample.refund_event
           Sample.orphan_db Sample.purchase_O1
           sample_refund_authentic eq_refl eq_refl eq_refl eq_refl eq_refl
           Hc sample_amount_is_decimal).
Defined.

(** ** Events that resolve to nothing *)

Lemma handlePurchaseCompleted_unresolved (env : environment)
      (data : GrooveSellWebhook) (w : world) :
  filter (has_email (customer_email data)) (user_profiles (db w)) = [] ->
  db (snd (handlePurchaseCompleted env data w)) = db w.
Proof.
  intros H. any_fault w; simpl in H;
    unfold handlePurchaseCompleted, try_catch, bind, ret,
      select_profile_by_email, store_call; simpl; rewrite ?H; reflexivity.
Qed.

Lemma handleSubscriptionRenewed_unresolved (env : environment)
      (data : GrooveSellWebhook) (w : world) :
  filter (has_email (customer_email data)) (user_profiles (db w)) = [] ->
  db (snd (handleSubscriptionRenewed env data w)) = db w.
Proof.
  intros H. any_fault w; simpl in H;
    unfold handleSubscriptionRenewed, try_catch, bind, ret,
      select_profile_by_email, store_call; simpl; rewrite ?H; reflexivity.
Qed.

Lemma handleSubscriptionCancelled_unresolved (data : GrooveSellWebhook) (w : world) :
  filter (has_email (customer_email data)) (user_profiles (db w)) = [] ->
  db (snd (handleSubscriptionCancelled data w)) = db w.
Proof.
  intros H. any_fault w; simpl in H;
    unfold handleSubscriptionCancelled, try_catch, bind, ret,
      update_profiles, store_call; simpl;
    rewrite ?(update_where_none _ _ _ H), ?database_eta; reflexivity.
Qed.

Lemma handleRefund_unresolved (data : GrooveSellWebhook) (w : world) :
  filter (has_order_id (order_id data)) (transactions (db w)) = [] ->
  db (snd (handleRefund data w)) = db w.
Proof.
  intros H. any_fault w; simpl in H;
    unfold handleRefund, try_catch, bind, ret,
      select_transaction_by_order_id, store_call; simpl; rewrite ?H; reflexivity.
Qed.

(** C9: an authentic event whose entity cannot be resolved -- no profile
    row has the customer email, or, for [refund.processed], no transaction has
    the order id -- is acknowledged with success and leaves the database as it
    was, whatever the store does meanwhile. *)
Theorem unresolved_event_changes_nothing :
  forall (hmac_sha256_hex : string -> string -> string)
         (JSON_parse : string -> option GrooveSellWebhook)
         (env : environment) (request : NextRequest) (data : GrooveSellWebhook)
         (w : world),
    authentic hmac_sha256_hex env request ->
    JSON_parse (body request) = Some data ->
    (event_type data <> "refund.processed" /\
     filter (has_email (customer_email data)) (user_profiles (db w)) = []
     \/
     event_type data = "refund.processed" /\
     filter (has_order_id (order_id data)) (transactions (db w)) = []) ->
    exists w',
      POST hmac_sha256_hex JSON_parse env request w =
        (Resolved (mk_NextResponse success_true 200), w') /\
      db w' = db w.
Proof.
  intros hmac parse env request data w Hauth Hparse Hunresolved.
  rewrite (POST_authentic hmac parse env request data _ Hauth Hparse).
  eexists. split; [reflexivity|].
  destruct Hunresolved as [[Hev Hemail] | [Hev Horder]].
  - unfold dispatch.
    destruct ((event_type data =? "purchase.completed")%string
              || (event_type data =? "subscription.created")%string);
      [now apply handlePurchaseCompleted_unresolved|].
    destruct (event_type data =? "subscription.renewed")%string;
      [now apply handleSubscriptionRenewed_unresolved|].
    destruct (event_type data =? "subscription.cancelled")%string;
      [now apply handleSubscriptionCancelled_unresolved|].
    destruct (event_type data =? "refund.processed")%string eqn:E;
      [now apply String.eqb_eq in E | reflexivity].
  - rewrite (dispatch_refund env data Hev).
    now apply handleRefund_unresolved.
Qed.

Lemma unresolved_event_changes_nothing_witness :
  authentic Sample.hmac_sha256_hex Sample.env (Sample.signed Sample.ghost_body) /\
  Sample.JSON_parse (body (Sample.signed Sample.ghost_body))
    = Some Sample.ghost_event /\
  (event_type Sample.ghost_event <> "refund.processed" /\
   filter (has_email (customer_email Sample.ghost_event))
     (user_profiles (db (mk_world Sample.fresh_db []))) = []
   \/
   event_type Sample.ghost_event = "refund.processed" /\
   filter (has_order_id (order_id Sample.ghost_event))
     (transactions (db (mk_world Sample.fresh_db []))) = []) /\
  exists w',
    POST Sample.hmac_sha256_hex Sample.JSON_parse Sample.env
      (Sample.signed Sample.ghost_body) (mk_world Sample.fresh_db []) =
      (Resolved (mk_NextResponse success_true 200), w') /\
    db w' = db (mk_world Sample.fresh_db []).
Proof.
  assert (H : event_type Sample.ghost_event <> "refund.processed" /\
              filter (has_email (customer_email Sample.ghost_event))
                (user_profiles (db (mk_world Sample.fresh_db []))) = []).
  { split; [discriminate | reflexivity]. }
  split; [exact sample_ghost_authentic|].
  split; [reflexivity|].
  split; [left; exact H|].
  exact (unresolved_event_changes_nothing Sample.hmac_sha256_hex Sample.JSON_parse
           Sample.env (Sample.signed Sample.ghost_body) Sample.ghost_event
           (mk_world Sample.fresh_db [])
           sample_ghost_authentic eq_refl (or_introl H)).
Defined.

(** The refund scenario for an unknown order: nothing changes. *)
Example refund_of_unknown_order :
  POST Sample.hmac_sha256_hex Sample.JSON_parse Sample.env
    (Sample.signed Sample.refund_body) (mk_world Sample.fresh_db [])
  = (Resolved (mk_NextResponse success_true 200), mk_world Sample.fresh_db []).
Proof. vm_compute. reflexivity. Qed.

(** ** Store failures *)

(** C7, as the code has it: every authentic event whose body parses is
    answered with [{ success: true }], status 200, whatever the store does
    while the event is applied -- each call may complete, return an error or
    throw.  No store failure reaches the response. *)
Theorem store_failure_is_acknowledged :
  forall (hmac_sha256_hex : string -> string -> string)
         (JSON_parse : string -> option GrooveSellWebhook)
         (env : environment) (request : NextRequest) (data : GrooveSellWebhook)
         (w : world),
    authentic hmac_sha256_hex env request ->
    JSON_parse (body request) = Some data ->
    fst (POST hmac_sha256_hex JSON_parse env request w)
    = Resolved (mk_NextResponse success_true 200).
Proof.
  intros hmac parse env request data w Hauth Hparse.
  now rewrite (POST_authentic hmac parse env request data _ Hauth Hparse).
Qed.

Lemma store_failure_is_acknowledged_witness :
  authentic Sample.hmac_sha256_hex Sample.env (Sample.signed Sample.purchase_body) /\
  Sample.JSON_parse (body (Sample.signed Sample.purchase_body))
    = Some Sample.purchase_event /\
  fst (POST Sample.hmac_sha256_hex Sample.JSON_parse Sample.env
         (Sample.signed Sample.purchase_body)
         (mk_world Sample.fresh_db [healthy; throws]))
  = Resolved (mk_NextResponse success_true 200).
Proof.
  split; [exact sample_purchase_authentic | split; [reflexivity|]].
  exact (store_failure_is_acknowledged Sample.hmac_sha256_hex Sample.JSON_parse
           Sample.env (Sample.signed Sample.purchase_body) Sample.purchase_event
           (mk_world Sample.fresh_db [healthy; throws])
           sample_purchase_authentic eq_refl).
Defined.

(** C7 fails as stated: the account lookup fails, then in a second run the
    credit addition fails, then in a third the transaction insert throws; each
    time the answer is 200 / success.  In the third run the credits were
    added and no transaction was recorded. *)
Lemma failed_store_still_answers_success :
  POST Sample.hmac_sha256_hex Sample.JSON_parse Sample.env
    (Sample.signed Sample.purchase_body) (mk_world Sample.fresh_db [fails])
  = (Resolved (mk_NextResponse success_true 200), mk_world Sample.fresh_db [])
  /\
  POST Sample.hmac_sha256_hex Sample.JSON_parse Sample.env
    (Sample.signed Sample.purchase_body) (mk_world Sample.fresh_db [healthy; fails])
  = (Resolved (mk_NextResponse success_true 200), mk_world Sample.fresh_db [])
  /\
  POST Sample.hmac_sha256_hex Sample.JSON_parse Sample.env
    (Sample.signed Sample.purchase_body)
    (mk_world Sample.fresh_db [healthy; healthy; healthy; throws])
  = (Resolved (mk_NextResponse success_true 200),
     mk_world (mk_database [Sample.ann_subscribed] []) []).
Proof. repeat split; vm_compute; reflexivity. Qed.

(** ** The ledger invariant *)

Lemma preserves_ret {A : Type} (I : database -> Prop) (a : A) :
  preserves I (ret a).
Proof. intros w H. exact H. Qed.

Lemma preserves_bind {A B : Type} (I : database -> Prop) (m : Async A)
      (k : A -> Async B) :
  preserves I m -> (forall a, preserves I (k a)) -> preserves I (bind m k).
Proof.
  intros Hm Hk w H. unfold bind. specialize (Hm w H).
  destruct (m w) as [[a|] w']; simpl in *; [now apply Hk | exact Hm].
Qed.

Lemma preserves_try_catch {A : Type} (I : database -> Prop) (m h : Async A) :
  preserves I m -> preserves I h -> preserves I (try_catch m h).
Proof.
  intros Hm Hh w H. unfold try_catch. specialize (Hm w H).
  destruct (m w) as [[a|] w']; simpl in *; [exact Hm | now apply Hh].
Qed.

Lemma preserves_store_call {A : Type} (I : database -> Prop)
      (op : database -> response A * database) :
  (forall d, I d -> I (snd (op d))) -> preserves I (store_call op).
Proof.
  intros Hop [d fs] H. unfold store_call. simpl in *.
  destruct fs as [|[] fs]; simpl; try exact H;
    specialize (Hop d H); destruct (op d); exact Hop.
Qed.

Lemma Forall_update_where {R : Type} (P : R -> Prop) (c : R -> bool) (f : R -> R)
      (rows : list R) :
  (forall r, P r -> c r = true -> P (f r)) ->
  Forall P rows -> Forall P (update_where c f rows).
Proof.
  intros Hf H. unfold update_where. induction H as [|r rows Hr _ IH]; simpl;
    constructor; [|exact IH].
  destruct (c r) eqn:E; [now apply Hf | exact Hr].
Qed.

Lemma sound_ledger_nonneg (d : database) : sound_ledger d -> nonneg_ledger d.
Proof.
  intros [_ H]. unfold nonneg_ledger. eapply Forall_impl; [|exact H].
  unfold ledger_ok, counters_nonneg. intros p. lia.
Qed.

Lemma use_credits_nonneg (u : string) (n : Z) (d : database) :
  0 <= n -> nonneg_ledger d -> nonneg_ledger (snd (use_credits u n d)).
Proof.
  intros Hn H. unfold use_credits.
  destruct (get_available_credits u d) as [available|]; [|exact H].
  destruct (available >=? n); [|exact H]. simpl.
  apply Forall_update_where; [|exact H].
  unfold counters_nonneg. simpl. intros p. lia.
Qed.

Lemma add_credits_nonneg (u : string) (n : Z) (d : database) :
  0 <= n -> nonneg_ledger d -> nonneg_ledger (snd (add_credits u n d)).
Proof.
  intros Hn H. unfold add_credits. simpl.
  apply Forall_update_where; [|exact H].
  unfold counters_nonneg. simpl. intros p. lia.
Qed.

(** Whatever the store does, a refund keeps both counters at or above 0: the
    only value it writes to [total_credits] is a [Math.max(0, ..)]. *)
Lemma handleRefund_nonneg (data : GrooveSellWebhook) :
  preserves nonneg_ledger (handleRefund data).
Proof.
  unfold handleRefund.
  apply preserves_try_catch; [|apply preserves_ret].
  apply preserves_bind; [apply preserves_store_call; now intros|].
  intros r. destruct (resp_error r), (resp_data r) as [original|];
    try apply preserves_ret.
  apply preserves_bind; [apply preserves_store_call; now intros|].
  intros r_prof. apply preserves_bind.
  - destruct (resp_data r_prof) as [userProfile|]; [|apply preserves_ret].
    apply preserves_bind; [|intros; apply preserves_ret].
    apply preserves_store_call. intros d H. simpl.
    apply Forall_update_where; [|exact H].
    unfold counters_nonneg. simpl. intros p. lia.
  - intros _. apply preserves_bind; [|intros; apply preserves_ret].
    apply preserves_store_call. intros d H.
    destruct (existsb _ _); exact H.
Qed.

Lemma use_credits_sound (u : string) (n : Z) (d : database) :
  0 <= n -> sound_ledger d -> sound_ledger (snd (use_credits u n d)).
Proof.
  intros Hn [Hkey H]. unfold use_credits, get_available_credits.
  destruct (find (has_id u) (user_profiles d)) as [account|] eqn:Hfind;
    [|now split].
  destruct (total_credits account - used_credits account >=? n) eqn:Hgeb;
    [|now split].
  apply Z.geb_le in Hgeb. split; simpl.
  - now rewrite map_id_update_where.
  - destruct (primary_key_split _ _ _ Hkey Hfind) as (before & after & Hrows & Hupd).
    rewrite Hupd. rewrite Hrows in H.
    apply Forall_app in H. destruct H as [Hb Ha].
    apply Forall_app. split; [exact Hb|].
    inversion Ha as [|? ? Hacc Hafter]; subst.
    constructor; [|exact Hafter].
    unfold ledger_ok in *. simpl. lia.
Qed.

Lemma add_credits_sound (u : string) (n : Z) (d : database) :
  0 <= n -> sound_ledger d -> sound_ledger (snd (add_credits u n d)).
Proof.
  intros Hn [Hkey H]. unfold add_credits. split; simpl.
  - now rewrite map_id_update_where.
  - apply Forall_update_where; [|exact H].
    unfold ledger_ok. simpl. intros p. lia.
Qed.

Lemma apply_operation_nonneg (d : database) (o : operation) :
  amount_nonneg o -> nonneg_ledger d -> nonneg_ledger (apply_operation d o).
Proof.
  destruct o as [u n | u n | data schedule]; simpl; intros Hn H.
  - now apply use_credits_nonneg.
  - now apply add_credits_nonneg.
  - exact (handleRefund_nonneg data (mk_world d schedule) H).
Qed.

(** C2, as the code has it: from a database whose accounts satisfy
    [0 <= used_credits <= total_credits], any sequence of [use_credits],
    [add_credits] (amounts not negative) and refunds keeps both counters of
    every account at or above 0; and as long as the sequence holds no refund,
    [used_credits <= total_credits] is kept as well. *)
Theorem ledger_invariant_along_operations :
  forall (ops : list operation) (d : database),
    sound_ledger d ->
    Forall amount_nonneg ops ->
    Forall counters_nonneg (user_profiles (run ops d)) /\
    (existsb is_refund ops = false ->
     Forall ledger_ok (user_profiles (run ops d))).
Proof.
  intros ops d Hsound Hamounts. split.
  - apply sound_ledger_nonneg in Hsound. revert d Hsound.
    induction Hamounts as [|o ops Ho _ IH]; intros d H; [exact H|].
    apply IH. now apply apply_operation_nonneg.
  - revert d Hsound.
    induction Hamounts as [|o ops Ho _ IH]; intros d H Hnone; [apply H|].
    simpl in Hnone. apply orb_false_iff in Hnone. destruct Hnone as [Hr Hrest].
    apply IH; [|exact Hrest].
    destruct o as [u n | u n | data schedule]; simpl in *; try discriminate.
    + now apply use_credits_sound.
    + now apply add_credits_sound.
Qed.

Lemma ledger_okb_spec (p : user_profile) : ledger_okb p = true <-> ledger_ok p.
Proof.
  unfold ledger_okb, ledger_ok. rewrite andb_true_iff, !Z.leb_le. reflexivity.
Qed.

Lemma ledger_invariant_along_operations_witness :
  sound_ledger Sample.subscribed_db /\
  Forall amount_nonneg
    [op_add_credits "u1" 5; op_use_credits "u1" 1;
     op_refund Sample.refund_event [healthy; fails]] /\
  Forall counters_nonneg
    (user_profiles
       (run [op_add_credits "u1" 5; op_use_credits "u1" 1;
             op_refund Sample.refund_event [healthy; fails]]
            Sample.subscribed_db)) /\
  (existsb is_refund
     [op_add_credits "u1" 5; op_use_credits "u1" 1;
      op_refund Sample.refund_event [healthy; fails]] = false ->
   Forall ledger_ok
     (user_profiles
        (run [op_add_credits "u1" 5; op_use_credits "u1" 1;
              op_refund Sample.refund_event [healthy; fails]]
             Sample.subscribed_db))).
Proof.
  assert (Hsound : sound_ledger Sample.subscribed_db).
  { split; simpl.
    - constructor; [intros [] | constructor].
    - constructor; [unfold ledger_ok; simpl; lia | constructor]. }
  assert (Hamounts : Forall amount_nonneg
            [op_add_credits "u1" 5; op_use_credits "u1" 1;
             op_refund Sample.refund_event [healthy; fails]]).
  { repeat constructor; simpl; lia. }
  split; [exact Hsound | split; [exact Hamounts|]].
  exact (ledger_invariant_along_operations _ Sample.subscribed_db Hsound Hamounts).
Defined.

(** C2 fails as stated: Ann holds 8 credits, 5 of them from the purchase
    O1, and the invariant holds; she uses all 8; the refund of O1 then lowers
    [total_credits] to 3 and leaves [used_credits] at 8. *)
Lemma refund_breaks_ledger_invariant :
  forallb ledger_okb (user_profiles Sample.subscribed_db) = true
  /\
  map (fun p => (total_credits p, used_credits p))
    (user_profiles
       (run [op_use_credits "u1" 8; op_refund Sample.refund_event []]
            Sample.subscribed_db))
  = [(3, 8)]
  /\
  forallb ledger_okb
    (user_profiles
       (run [op_use_credits "u1" 8; op_refund Sample.refund_event []]
            Sample.subscribed_db))
  = false.
Proof. repeat split. Qed.

(** * Further properties of the code *)

(** ** The credit functions, continued *)

Lemma find_update_where {R : Type} (c : R -> bool) (f : R -> R) (rows : list R) :
  (forall r, c (f r) = c r) ->
  find c (update_where c f rows) = option_map f (find c rows).
Proof.
  intros Hc. induction rows as [|r rows IH]; [reflexivity|].
  rewrite update_where_cons. simpl.
  destruct (c r) eqn:E; [now rewrite Hc, E | now rewrite E].
Qed.

Lemma update_where_find_none {R : Type} (c : R -> bool) (f : R -> R) (rows : list R) :
  find c rows = None -> update_where c f rows = rows.
Proof.
  intros H. apply update_where_none.
  induction rows as [|r rows IH]; simpl in *; [reflexivity|].
  destruct (c r); [discriminate | now apply IH].
Qed.

Lemma existsb_find_none {R : Type} (c : R -> bool) (rows : list R) :
  find c rows = None -> existsb c rows = false.
Proof.
  induction rows as [|r rows IH]; simpl; [reflexivity|].
  destruct (c r); [discriminate | exact IH].
Qed.

(** For a user id that has no row, [use_credits] and [add_credits] both
    answer [false] and leave the database as it was. *)
Theorem credit_functions_on_unknown_user :
  forall (user_uuid : string) (n : Z) (d : database),
    get_available_credits user_uuid d = None ->
    use_credits user_uuid n d = (false, d) /\
    add_credits user_uuid n d = (false, d).
Proof.
  intros u n d H. unfold get_available_credits in H.
  destruct (find (has_id u) (user_profiles d)) as [p|] eqn:Hfind; [discriminate|].
  split.
  - unfold use_credits, get_available_credits. now rewrite Hfind.
  - unfold add_credits.
    now rewrite (existsb_find_none _ _ Hfind), (update_where_find_none _ _ _ Hfind),
      database_eta.
Qed.

Lemma credit_functions_on_unknown_user_witness :
  get_available_credits "u9" Sample.fresh_db = None /\
  use_credits "u9" 1 Sample.fresh_db = (false, Sample.fresh_db) /\
  add_credits "u9" 1 Sample.fresh_db = (false, Sample.fresh_db).
Proof.
  split; [reflexivity|].
  exact (credit_functions_on_unknown_user "u9" 1 Sample.fresh_db eq_refl).
Defined.

Lemma get_available_credits_after (u : string) (n a : Z) (d : database) :
  get_available_credits u d = Some a ->
  get_available_credits u (snd (add_credits u n d)) = Some (a + n) /\
  fst (use_credits u n d) = (n <=? a) /\
  get_available_credits u (snd (use_credits u n d))
    = Some (if n <=? a then a - n else a).
Proof.
  intros H. unfold get_available_credits in *.
  destruct (find (has_id u) (user_profiles d)) as [p|] eqn:Hfind; [|discriminate].
  injection H as <-. repeat split.
  - unfold add_credits. simpl. rewrite find_update_where by reflexivity.
    rewrite Hfind. simpl. f_equal. lia.
  - unfold use_credits, get_available_credits. rewrite Hfind, Z.geb_leb.
    now destruct (n <=? total_credits p - used_credits p).
  - unfold use_credits, get_available_credits. rewrite Hfind, Z.geb_leb.
    destruct (n <=? total_credits p - used_credits p); simpl.
    + rewrite find_update_where by reflexivity. rewrite Hfind. simpl. f_equal. lia.
    + now rewrite Hfind.
Qed.



Lemma use_credits_repeatedly_refused (u : string) (k : nat) (d : database)
      (available : Z) :
  get_available_credits u d = Some available -> available <= 0 ->
  use_credits_repeatedly u k d = (repeat false k, d).
Proof.
  intros Ha Hle. induction k as [|k IH]; [reflexivity|].
  simpl. unfold use_credits at 1. rewrite Ha.
  destruct (available >=? 1) eqn:E; [apply Z.geb_le in E; lia|].
  now rewrite IH.
Qed.

Lemma use_credits_repeatedly_spec :
  forall (requests : nat) (user_uuid : string) (d : database) (available : Z),
    get_available_credits user_uuid d = Some available ->
    fst (use_credits_repeatedly user_uuid requests d)
      = (repeat true (Nat.min requests (Z.to_nat available))
           ++ repeat false (requests - Z.to_nat available))%list /\
    get_available_credits user_uuid (snd (use_credits_repeatedly user_uuid requests d))
      = Some (available - Z.of_nat (Nat.min requests (Z.to_nat available))).
Proof.
  induction requests as [|k IH]; intros u d a Ha.
  - simpl. split; [reflexivity|]. rewrite Ha. f_equal. lia.
  - destruct (Z_le_gt_dec a 0) as [Hle|Hgt].
    + rewrite (use_credits_repeatedly_refused u (S k) d a Ha Hle).
      replace (Z.to_nat a) with O by lia.
      rewrite Nat.min_0_r, Nat.sub_0_r. simpl. split; [reflexivity|].
      rewrite Ha. f_equal. lia.
    + destruct (get_available_credits_after u 1 a d Ha) as (_ & Hfst & Hsnd).
      assert (E : (1 <=? a) = true) by (apply Z.leb_le; lia).
      rewrite E in Hfst, Hsnd.
      simpl. destruct (use_credits u 1 d) as [granted d'] eqn:Huse.
      simpl in Hfst, Hsnd. subst granted.
      destruct (IH u d' (a - 1) Hsnd) as [Hl Hr].
      destruct (use_credits_repeatedly u k d') as [rest d'']. simpl in *.
      replace (Z.to_nat a) with (S (Z.to_nat (a - 1))) by lia.
      simpl. split; [now rewrite Hl|].
      rewrite Hr. f_equal. lia.
Qed.

(** Single-credit requests in a row against an account with [available]
    credits left: the first [available] of them are granted, every later one
    is refused, and the account ends with what was not asked for. *)
Theorem unit_requests_granted_up_to_available :
  forall (requests : nat) (user_uuid : string) (d : database) (available : Z),
    get_available_credits user_uuid d = Some available ->
    fst (use_credits_repeatedly user_uuid requests d)
      = (repeat true (Nat.min requests (Z.to_nat available))
           ++ repeat false (requests - Z.to_nat available))%list /\
    get_available_credits user_uuid (snd (use_credits_repeatedly user_uuid requests d))
      = Some (available - Z.of_nat (Nat.min requests (Z.to_nat available))).
Proof.
  intros requests u d a H. exact (use_credits_repeatedly_spec requests u d a H).
Qed.

Lemma unit_requests_granted_up_to_available_witness :
  get_available_credits "u1" Sample.fresh_db = Some 3 /\
  fst (use_credits_repeatedly "u1" 5 Sample.fresh_db)
    = (repeat true (Nat.min 5 (Z.to_nat 3)) ++ repeat false (5 - Z.to_nat 3))%list /\
  get_available_credits "u1" (snd (use_credits_repeatedly "u1" 5 Sample.fresh_db))
    = Some (3 - Z.of_nat (Nat.min 5 (Z.to_nat 3))).
Proof.
  split; [reflexivity|].
  exact (unit_requests_granted_up_to_available 5 "u1" Sample.fresh_db 3 eq_refl).
Defined.

(** ** Signup *)

Lemma find_app_absent {R : Type} (c : R -> bool) (rows : list R) (r : R) :
  existsb c rows = false ->
  find c (rows ++ [r])%list = if c r then Some r else None.
Proof.
  induction rows as [|q rows IH]; simpl; [reflexivity|].
  destruct (c q); [discriminate | exact IH].
Qed.

Lemma find_app_present {R : Type} (c : R -> bool) (rows extra : list R) (r : R) :
  find c rows = Some r -> find c (rows ++ extra)%list = Some r.
Proof.
  induction rows as [|q rows IH]; simpl; [discriminate|].
  destruct (c q); [easy | exact IH].
Qed.

Lemma existsb_has_id_in (u : string) (rows : list user_profile) :
  existsb (has_id u) rows = false -> ~ In u (map id rows).
Proof.
  induction rows as [|q rows IH]; simpl; [tauto|].
  destruct (has_id u q) eqn:E; [discriminate|].
  intros H [Hq | Hin]; [|now apply IH].
  apply String.eqb_neq in E. congruence.
Qed.

(** Signing up under an id that has no row yet appends one row -- the new
    account, inactive, with 3 total and 0 used credits -- and touches nothing
    else: the rows that were there are there unchanged and the transaction
    log is as it was.  The ledger invariant and the primary key still hold,
    the account has 3 credits available, and of any number of single-credit
    requests exactly the first three are granted. *)
Theorem signup_grants_three_credits :
  forall (new_id new_email : string) (d : database),
    sound_ledger d ->
    existsb (has_id new_id) (user_profiles d) = false ->
    exists d',
      handle_new_user new_id new_email d = Some d' /\
      user_profiles d'
      = (user_profiles d ++ [mk_profile new_id new_email inactive None 3 0 None])%list /\
      transactions d' = transactions d /\
      sound_ledger d' /\
      get_available_credits new_id d' = Some 3 /\
      (forall requests,
          fst (use_credits_repeatedly new_id requests d')
          = (repeat true (Nat.min requests 3) ++ repeat false (requests - 3))%list).
Proof.
  intros i e d [Hkey Hok] Hfresh. unfold handle_new_user. rewrite Hfresh.
  eexists. split; [reflexivity|].
  assert (Ha : get_available_credits i
                 (mk_database (user_profiles d ++ [mk_profile i e inactive None 3 0 None])
                              (transactions d)) = Some 3).
  { unfold get_available_credits. simpl. rewrite find_app_absent by exact Hfresh.
    unfold has_id. simpl. now rewrite String.eqb_refl. }
  split; [reflexivity|]. split; [reflexivity|]. split; [split|split].
  - simpl. rewrite map_app. simpl. apply NoDup_app; [exact Hkey | |].
    + constructor; [intros [] | constructor].
    + intros x Hx [<- | []]. now apply (existsb_has_id_in _ _ Hfresh).
  - simpl. apply Forall_app. split; [exact Hok|].
    constructor; [unfold ledger_ok; simpl; lia | constructor].
  - exact Ha.
  - intros requests.
    exact (proj1 (use_credits_repeatedly_spec requests i _ 3 Ha)).
Qed.

Lemma signup_grants_three_credits_witness :
  sound_ledger Sample.subscribed_db /\
  existsb (has_id "u7") (user_profiles Sample.subscribed_db) = false /\
  exists d',
    handle_new_user "u7" "eve@example.com" Sample.subscribed_db = Some d' /\
    user_profiles d'
    = (user_profiles Sample.subscribed_db
         ++ [mk_profile "u7" "eve@example.com" inactive None 3 0 None])%list /\
    transactions d' = transactions Sample.subscribed_db /\
    sound_ledger d' /\
    get_available_credits "u7" d' = Some 3 /\
    (forall requests,
        fst (use_credits_repeatedly "u7" requests d')
        = (repeat true (Nat.min requests 3) ++ repeat false (requests - 3))%list).
Proof.
  assert (Hsound : sound_ledger Sample.subscribed_db).
  { split; simpl.
    - constructor; [intros [] | constructor].
    - constructor; [unfold ledger_ok; simpl; lia | constructor]. }
  split; [exact Hsound | split; [reflexivity|]].
  exact (signup_grants_three_credits "u7" "eve@example.com" Sample.subscribed_db
           Hsound eq_refl).
Defined.

(** ** What no delivery ever does *)

Lemma preserves_lift {A : Type} (I : database -> Prop) (c : completion A) :
  preserves I (lift c).
Proof. intros w H. exact H. Qed.

Lemma keeps_identity_set_total_credits (g : user_profile -> Z) :
  keeps_identity (fun p => set_total_credits (g p) p).
Proof. intros p. now repeat split. Qed.

Section WebhookInvariant.

(** A property of the database kept by every update of profile rows that
    leaves identities and consumed credits alone, and by every insert of a
    transaction under a key not yet on record. *)
Variable I : database -> Prop.

Hypothesis I_update :
  forall c f d, keeps_identity f -> I d ->
                I (mk_database (update_where c f (user_profiles d)) (transactions d)).

Hypothesis I_insert :
  forall t d, existsb (has_order_id (groovesell_order_id t)) (transactions d) = false ->
              I d -> I (mk_database (user_profiles d) (transactions d ++ [t])%list).

Lemma select_preserves {R : Type} (q : database -> response R) :
  preserves I (store_call (fun d => (q d, d))).
Proof. apply preserves_store_call. now intros. Qed.

Lemma rpc_add_credits_preserves (u : string) (n : Z) :
  preserves I (rpc_add_credits u n).
Proof.
  apply preserves_store_call. intros d H. unfold add_credits. simpl.
  apply I_update; [apply keeps_identity_set_total_credits | exact H].
Qed.

Lemma update_profiles_preserves (c : user_profile -> bool)
      (f : user_profile -> user_profile) :
  keeps_identity f -> preserves I (update_profiles c f).
Proof.
  intros Hf. apply preserves_store_call. intros d H. simpl. now apply I_update.
Qed.

Lemma insert_transaction_preserves (t : transaction) :
  preserves I (insert_transaction t).
Proof.
  apply preserves_store_call. intros d H.
  destruct (existsb (has_order_id (groovesell_order_id t)) (transactions d)) eqn:E;
    [exact H | now apply I_insert].
Qed.

Lemma handlePurchaseCompleted_preserves (env : environment) (data : GrooveSellWebhook) :
  preserves I (handlePurchaseCompleted env data).
Proof.
  unfold handlePurchaseCompleted.
  apply preserves_try_catch; [|apply preserves_ret].
  apply preserves_bind; [apply select_preserves|].
  intros r. destruct (resp_error r), (resp_data r) as [users|];
    try apply preserves_ret.
  apply preserves_bind; [apply rpc_add_credits_preserves|].
  intros r_add. destruct (resp_error r_add); [apply preserves_ret|].
  apply preserves_bind; [apply update_profiles_preserves; intros p; now repeat split|].
  intros r_upd. destruct (resp_error r_upd); [apply preserves_ret|].
  apply preserves_bind; [apply insert_transaction_preserves|].
  intros _. apply preserves_ret.
Qed.

Lemma handleSubscriptionRenewed_preserves (env : environment)
      (data : GrooveSellWebhook) :
  preserves I (handleSubscriptionRenewed env data).
Proof.
  unfold handleSubscriptionRenewed.
  apply preserves_try_catch; [|apply preserves_ret].
  apply preserves_bind; [apply select_preserves|].
  intros r. destruct (resp_error r), (resp_data r) as [users|];
    try apply preserves_ret.
  apply preserves_bind; [apply rpc_add_credits_preserves|].
  intros _. apply preserves_bind; [apply insert_transaction_preserves|].
  intros _. apply preserves_ret.
Qed.

Lemma handleSubscriptionCancelled_preserves (data : GrooveSellWebhook) :
  preserves I (handleSubscriptionCancelled data).
Proof.
  unfold handleSubscriptionCancelled.
  apply preserves_try_catch; [|apply preserves_ret].
  apply preserves_bind;
    [apply update_profiles_preserves; intros p; now repeat split|].
  intros _. apply preserves_ret.
Qed.

Lemma handleRefund_preserves (data : GrooveSellWebhook) :
  preserves I (handleRefund data).
Proof.
  unfold handleRefund.
  apply preserves_try_catch; [|apply preserves_ret].
  apply preserves_bind; [apply select_preserves|].
  intros r. destruct (resp_error r), (resp_data r) as [original|];
    try apply preserves_ret.
  apply preserves_bind; [apply select_preserves|].
  intros r_prof. apply preserves_bind.
  - destruct (resp_data r_prof) as [userProfile|]; [|apply preserves_ret].
    apply preserves_bind; [|intros; apply preserves_ret].
    apply update_profiles_preserves. intros p. now repeat split.
  - intros _. apply preserves_bind; [apply insert_transaction_preserves|].
    intros _. apply preserves_ret.
Qed.

Lemma dispatch_preserves (env : environment) (data : GrooveSellWebhook) :
  preserves I (dispatch env data).
Proof.
  unfold dispatch.
  repeat match goal with
         | |- context [if ?b then _ else _] => destruct b
         end;
    first [ apply handlePurchaseCompleted_preserves
          | apply handleSubscriptionRenewed_preserves
          | apply handleSubscriptionCancelled_preserves
          | apply handleRefund_preserves
          | apply preserves_ret ].
Qed.

Lemma POST_preserves (hmac_sha256_hex : string -> string -> string)
      (JSON_parse : string -> option GrooveSellWebhook)
      (env : environment) (request : NextRequest) :
  preserves I (POST hmac_sha256_hex JSON_parse env request).
Proof.
  unfold POST.
  apply preserves_try_catch; [|apply preserves_ret].
  destruct (truthy (GROOVESELL_WEBHOOK_SECRET env)); [|apply preserves_ret].
  destruct (truthy (x_groovesell_signature request)); [|apply preserves_ret].
  apply preserves_bind; [apply preserves_lift|].
  intros verified. destruct (negb verified); [apply preserves_ret|].
  apply preserves_bind; [apply preserves_lift|].
  intros webhookData. apply preserves_bind; [apply dispatch_preserves|].
  intros _. apply preserves_ret.
Qed.

End WebhookInvariant.

(** The transaction log is append-only: whatever is delivered, authentic or
    not, and whatever the store does meanwhile, the rows on record before
    the delivery are still there afterwards, unchanged and in place. *)
Theorem transaction_log_is_append_only :
  forall (hmac_sha256_hex : string -> string -> string)
         (JSON_parse : string -> option GrooveSellWebhook)
         (env : environment) (request : NextRequest) (w : world),
    exists appended,
      transactions (db (snd (POST hmac_sha256_hex JSON_parse env request w)))
      = (transactions (db w) ++ appended)%list.
Proof.
  intros hmac parse env request w.
  apply (POST_preserves
           (fun d => exists appended,
                       transactions d = (transactions (db w) ++ appended)%list)).
  - intros c f d _ H. exact H.
  - intros t d _ [appended H]. exists (appended ++ [t])%list. simpl.
    now rewrite H, app_assoc.
  - exists []. now rewrite app_nil_r.
Qed.

Lemma NoDup_snoc {A : Type} (l : list A) (x : A) :
  NoDup l -> ~ In x l -> NoDup (l ++ [x]).
Proof.
  intros Hl Hx. apply NoDup_app; [exact Hl | |].
  - constructor; [intros [] | constructor].
  - intros y Hy [<- | []]. now apply Hx.
Qed.

Lemma has_order_id_not_in (o : string) (rows : list transaction) :
  existsb (has_order_id o) rows = false -> ~ In o (map groovesell_order_id rows).
Proof.
  induction rows as [|t rows IH]; simpl; [tauto|].
  destruct (has_order_id o t) eqn:E; [discriminate|].
  intros H [Ht | Hin]; [|now apply IH].
  apply String.eqb_neq in E. congruence.
Qed.

(** No delivery breaks the uniqueness of [groovesell_order_id]: if no two
    recorded transactions share an order id before, none do afterwards,
    for every request and every behaviour of the store. *)
Theorem order_ids_stay_unique :
  forall (hmac_sha256_hex : string -> string -> string)
         (JSON_parse : string -> option GrooveSellWebhook)
         (env : environment) (request : NextRequest) (w : world),
    NoDup (order_ids (db w)) ->
    NoDup (order_ids (db (snd (POST hmac_sha256_hex JSON_parse env request w)))).
Proof.
  intros hmac parse env request w.
  apply (POST_preserves (fun d => NoDup (order_ids d))).
  - intros c f d _ H. exact H.
  - intros t d Hfresh H. unfold order_ids in *. simpl. rewrite map_app. simpl.
    apply NoDup_snoc; [exact H | now apply has_order_id_not_in].
Qed.

Lemma order_ids_stay_unique_witness :
  NoDup (order_ids (db (mk_world Sample.subscribed_db []))) /\
  NoDup (order_ids
           (db (snd (POST Deliveries.hmac_sha256_hex Deliveries.JSON_parse Sample.env
                       (Deliveries.signed Deliveries.renewal_body)
                       (mk_world Sample.subscribed_db []))))).
Proof.
  assert (H : NoDup (order_ids (db (mk_world Sample.subscribed_db [])))).
  { simpl. constructor; [intros [] | constructor]. }
  split; [exact H|].
  exact (order_ids_stay_unique Deliveries.hmac_sha256_hex Deliveries.JSON_parse
           Sample.env (Deliveries.signed Deliveries.renewal_body)
           (mk_world Sample.subscribed_db []) H).
Defined.

(** No delivery creates, deletes or renames an account, and none touches
    [used_credits]: the ids, emails and consumed credits of the profile rows
    are the same, row by row, after any request under any behaviour of the
    store. *)
Theorem deliveries_keep_identity_and_usage :
  forall (hmac_sha256_hex : string -> string -> string)
         (JSON_parse : string -> option GrooveSellWebhook)
         (env : environment) (request : NextRequest) (w : world),
    map (fun p => (id p, email p, used_credits p))
        (user_profiles (db (snd (POST hmac_sha256_hex JSON_parse env request w))))
    = map (fun p => (id p, email p, used_credits p)) (user_profiles (db w)).
Proof.
  intros hmac parse env request w.
  apply (POST_preserves
           (fun d => map (fun p => (id p, email p, used_credits p)) (user_profiles d)
                     = map (fun p => (id p, email p, used_credits p))
                           (user_profiles (db w)))).
  - intros c f d Hf H. simpl. rewrite <- H. unfold update_where. rewrite map_map.
    apply map_ext. intros p. destruct (c p); [|reflexivity].
    destruct (Hf p) as (-> & -> & ->). reflexivity.
  - intros t d _ H. exact H.
  - reflexivity.
Qed.

(** ** Answers of the endpoint *)

(** The endpoint never lets an exception escape: every request, under every
    behaviour of the store, is answered, and the status is 200, 400, 401 or
    500; the answer is 200 exactly when its body is [{ success: true }]. *)
Theorem POST_always_answers :
  forall (hmac_sha256_hex : string -> string -> string)
         (JSON_parse : string -> option GrooveSellWebhook)
         (env : environment) (request : NextRequest) (w : world),
    exists response,
      fst (POST hmac_sha256_hex JSON_parse env request w) = Resolved response /\
      In (http_status response) [200; 400; 401; 500] /\
      (http_status response = 200 <-> json response = success_true).
Proof.
  intros hmac parse env request w.
  unfold POST, try_catch, bind, lift, ret.
  destruct (truthy (GROOVESELL_WEBHOOK_SECRET env)) as [secret|];
    [|eexists; split; [reflexivity|]; simpl; split; [tauto | split; discriminate]].
  destruct (truthy (x_groovesell_signature request)) as [signature|];
    [|eexists; split; [reflexivity|]; simpl; split; [tauto | split; discriminate]].
  destruct (verifyWebhookSignature hmac (body request) signature secret)
    as [[|]|]; simpl;
    try (eexists; split; [reflexivity|]; simpl; split; [tauto | split; discriminate]).
  destruct (parse (body request)) as [data|]; simpl;
    [|eexists; split; [reflexivity|]; simpl; split; [tauto | split; discriminate]].
  pose proof (dispatch_resolves env data w) as Hd.
  destruct (dispatch env data w) as [c w']. simpl in Hd. subst c.
  eexists. split; [reflexivity|]. simpl. split; [tauto | split; reflexivity].
Qed.

(** An authentic event of a type the [switch] does not list is acknowledged
    with success without a single call to the store: the world, schedule of
    faults included, is as before. *)
Theorem unhandled_event_type_is_acknowledged :
  forall (hmac_sha256_hex : string -> string -> string)
         (JSON_parse : string -> option GrooveSellWebhook)
         (env : environment) (request : NextRequest) (data : GrooveSellWebhook)
         (w : world),
    authentic hmac_sha256_hex env request ->
    JSON_parse (body request) = Some data ->
    ~ In (event_type data)
         ["purchase.completed"; "subscription.created"; "subscription.renewed";
          "subscription.cancelled"; "refund.processed"] ->
    POST hmac_sha256_hex JSON_parse env request w
    = (Resolved (mk_NextResponse success_true 200), w).
Proof.
  intros hmac parse env request data w Hauth Hparse Hnot.
  rewrite (POST_authentic hmac parse env request data _ Hauth Hparse).
  unfold dispatch.
  repeat match goal with
         | |- context [(event_type data =? ?lit)%string] =>
             let E := fresh "E" in
             destruct (event_type data =? lit)%string eqn:E;
             [apply String.eqb_eq in E; exfalso; apply Hnot; rewrite E; simpl; tauto|]
         end.
  reflexivity.
Qed.

Lemma sample_invoice_authentic :
  authentic Deliveries.hmac_sha256_hex Sample.env
            (Deliveries.signed Deliveries.invoice_body).
Proof. exists Sample.secret. eexists. repeat split. Qed.

Lemma unhandled_event_type_is_acknowledged_witness :
  authentic Deliveries.hmac_sha256_hex Sample.env
            (Deliveries.signed Deliveries.invoice_body) /\
  Deliveries.JSON_parse (body (Deliveries.signed Deliveries.invoice_body))
    = Some Deliveries.invoice_event /\
  POST Deliveries.hmac_sha256_hex Deliveries.JSON_parse Sample.env
    (Deliveries.signed Deliveries.invoice_body)
    (mk_world Sample.fresh_db [throws])
  = (Resolved (mk_NextResponse success_true 200),
     mk_world Sample.fresh_db [throws]).
Proof.
  split; [exact sample_invoice_authentic | split; [reflexivity|]].
  refine (unhandled_event_type_is_acknowledged
            Deliveries.hmac_sha256_hex Deliveries.JSON_parse Sample.env
            (Deliveries.signed Deliveries.invoice_body) Deliveries.invoice_event
            (mk_world Sample.fresh_db [throws])
            sample_invoice_authentic eq_refl _).
  simpl. intros [H | [H | [H | [H | [H | []]]]]]; discriminate H.
Defined.

(** A correctly signed body that [JSON.parse] rejects is answered 500,
    "Internal server error", and nothing is touched. *)
Theorem unparseable_body_is_an_internal_error :
  forall (hmac_sha256_hex : string -> string -> string)
         (JSON_parse : string -> option GrooveSellWebhook)
         (env : environment) (request : NextRequest) (w : world),
    authentic hmac_sha256_hex env request ->
    JSON_parse (body request) = None ->
    POST hmac_sha256_hex JSON_parse env request w
    = (Resolved (mk_NextResponse (error_message "Internal server error") 500), w).
Proof.
  intros hmac parse env request w (secret & signature & Hs & Hsig & Hv) Hparse.
  unfold POST, try_catch, bind, lift, ret.
  now rewrite Hs, Hsig, Hv, Hparse.
Qed.

Lemma sample_malformed_authentic :
  authentic Deliveries.hmac_sha256_hex Sample.env
            (Deliveries.signed Deliveries.malformed_body).
Proof. exists Sample.secret. eexists. repeat split. Qed.

Lemma unparseable_body_is_an_internal_error_witness :
  authentic Deliveries.hmac_sha256_hex Sample.env
            (Deliveries.signed Deliveries.malformed_body) /\
  Deliveries.JSON_parse (body (Deliveries.signed Deliveries.malformed_body)) = None /\
  POST Deliveries.hmac_sha256_hex Deliveries.JSON_parse Sample.env
    (Deliveries.signed Deliveries.malformed_body) (mk_world Sample.fresh_db [])
  = (Resolved (mk_NextResponse (error_message "Internal server error") 500),
     mk_world Sample.fresh_db []).
Proof.
  split; [exact sample_malformed_authentic | split; [reflexivity|]].
  exact (unparseable_body_is_an_internal_error
           Deliveries.hmac_sha256_hex Deliveries.JSON_parse Sample.env
           (Deliveries.signed Deliveries.malformed_body)
           (mk_world Sample.fresh_db [])
           sample_malformed_authentic eq_refl).
Defined.

(** ** Renewals, cancellations and partial failures *)

Lemma dispatch_renewed (env : environment) (data : GrooveSellWebhook) :
  event_type data = "subscription.renewed" ->
  dispatch env data = handleSubscriptionRenewed env data.
Proof. unfold dispatch. now intros ->. Qed.

Lemma dispatch_cancelled (env : environment) (data : GrooveSellWebhook) :
  event_type data = "subscription.cancelled" ->
  dispatch env data = handleSubscriptionCancelled data.
Proof. unfold dispatch. now intros ->. Qed.

Lemma account_of_email (e : string) (rows : list user_profile) (account : user_profile) :
  NoDup (map id rows) ->
  filter (has_email e) rows = [account] ->
  exists before after,
    rows = (before ++ account :: after)%list /\
    forall f, update_where (has_id (id account)) f rows
              = (before ++ f account :: after)%list.
Proof.
  intros Hkey Hemail.
  exact (primary_key_split _ _ _ Hkey
           (find_by_primary_key _ _ Hkey (filter_singleton_in _ _ _ Hemail))).
Qed.

(** An authentic [subscription.renewed] event whose email resolves to one
    account, delivered to a healthy store that has no transaction with its
    order id, adds N credits to that account and appends one purchase
    transaction; unlike a purchase it leaves the subscription status, the
    subscription type and the customer id of the account as they were.  N
    is the value of [NEXT_PUBLIC_CREDITS_PER_MONTH], or 5 when it is not set;
    N and the new total are within [INTEGER] and the amount is one
    [DECIMAL(10,2)] stores as it is. *)
Theorem renewal_adds_credits_only :
  forall (hmac_sha256_hex : string -> string -> string)
         (JSON_parse : string -> option GrooveSellWebhook)
         (env : environment) (request : NextRequest) (data : GrooveSellWebhook)
         (d : database) (account : user_profile) (N : Z),
    authentic hmac_sha256_hex env request ->
    JSON_parse (body request) = Some data ->
    event_type data = "subscription.renewed" ->
    NEXT_PUBLIC_CREDITS_PER_MONTH env = Some N
    \/ (NEXT_PUBLIC_CREDITS_PER_MONTH env = None /\ N = 5) ->
    NoDup (map id (user_profiles d)) ->
    filter (has_email (customer_email data)) (user_profiles d) = [account] ->
    filter (has_order_id (order_id data)) (transactions d) = [] ->
    INTEGER N ->
    INTEGER (total_credits account + N) ->
    DECIMAL_10_2 (amount data) ->
    exists before after,
      user_profiles d = (before ++ account :: after)%list /\
      POST hmac_sha256_hex JSON_parse env request (mk_world d []) =
        (Resolved (mk_NextResponse success_true 200),
         mk_world
           (mk_database
              (before
                 ++ mk_profile (id account) (email account)
                      (subscription_status account) (subscription_type account)
                      (total_credits account + N)
                      (used_credits account) (groovesell_customer_id account)
                 :: after)%list
              (transactions d
                 ++ [mk_transaction (id account) (order_id data) purchase
                       N (Some (amount data))
                       (currency data)
                       (Some (subscription_type_or_monthly data)) completed])%list)
           []).
Proof.
  intros hmac parse env request data d account N
         Hauth Hparse Hev Hconf Hkey Hemail Hfresh _ _ _.
  destruct (account_of_email _ _ _ Hkey Hemail) as (before & after & Hrows & Hupd).
  exists before, after. split; [exact Hrows|].
  rewrite (POST_authentic hmac parse env request data _ Hauth Hparse).
  rewrite (dispatch_renewed env data Hev).
  unfold handleSubscriptionRenewed, try_catch, bind, ret,
    select_profile_by_email, rpc_add_credits, insert_transaction.
  rewrite store_call_healthy. simpl. rewrite Hemail. simpl.
  repeat (rewrite store_call_healthy; simpl).
  now rewrite (has_order_id_absent _ _ Hfresh), Hupd, (configured_credits env N Hconf).
Qed.

Lemma sample_renewal_authentic :
  authentic Deliveries.hmac_sha256_hex Sample.env
            (Deliveries.signed Deliveries.renewal_body).
Proof. exists Sample.secret. eexists. repeat split. Qed.

Lemma renewal_adds_credits_only_witness :
  authentic Deliveries.hmac_sha256_hex Sample.env
            (Deliveries.signed Deliveries.renewal_body) /\
  Deliveries.JSON_parse (body (Deliveries.signed Deliveries.renewal_body))
    = Some Deliveries.renewal_event /\
  event_type Deliveries.renewal_event = "subscription.renewed" /\
  (NEXT_PUBLIC_CREDITS_PER_MONTH Sample.env = Some 5
   \/ (NEXT_PUBLIC_CREDITS_PER_MONTH Sample.env = None /\ 5 = 5)) /\
  NoDup (map id (user_profiles Deliveries.two_accounts_db)) /\
  filter (has_email (customer_email Deliveries.renewal_event))
    (user_profiles Deliveries.two_accounts_db) = [Sample.ann_subscribed] /\
  filter (has_order_id (order_id Deliveries.renewal_event))
    (transactions Deliveries.two_accounts_db) = [] /\
  INTEGER 5 /\
  INTEGER (total_credits Sample.ann_subscribed + 5) /\
  DECIMAL_10_2 (amount Deliveries.renewal_event) /\
  exists before after,
    user_profiles Deliveries.two_accounts_db
      = (before ++ Sample.ann_subscribed :: after)%list /\
    POST Deliveries.hmac_sha256_hex Deliveries.JSON_parse Sample.env
      (Deliveries.signed Deliveries.renewal_body)
      (mk_world Deliveries.two_accounts_db []) =
      (Resolved (mk_NextResponse success_true 200),
       mk_world
         (mk_database
            (before
               ++ mk_profile "u1" "ann@example.com" active (Some yearly) (8 + 5) 0
                    (Some "O1")
               :: after)%list
            ([Sample.purchase_O1]
               ++ [mk_transaction "u1" "O2" purchase 5 (Some (199 # 20)) "USD"
                     (Some yearly) completed])%list)
         []).
Proof.
  assert (Hkey : NoDup (map id (user_profiles Deliveries.two_accounts_db))).
  { simpl. repeat constructor; simpl; intuition discriminate. }
  assert (Hn : INTEGER 5) by (unfold INTEGER; lia).
  assert (Ht : INTEGER (total_credits Sample.ann_subscribed + 5))
    by (unfold INTEGER; simpl; lia).
  assert (Hconf : NEXT_PUBLIC_CREDITS_PER_MONTH Sample.env = Some 5
                  \/ (NEXT_PUBLIC_CREDITS_PER_MONTH Sample.env = None /\ 5 = 5))
    by (right; split; reflexivity).
  repeat (split; [first [exact sample_renewal_authentic | exact Hkey
                        | exact Hn | exact Ht | exact Hconf
                        | exact sample_amount_is_decimal | reflexivity] |]).
  exact (renewal_adds_credits_only Deliveries.hmac_sha256_hex Deliveries.JSON_parse
           Sample.env (Deliveries.signed Deliveries.renewal_body)
           Deliveries.renewal_event Deliveries.two_accounts_db Sample.ann_subscribed 5
           sample_renewal_authentic eq_refl eq_refl Hconf Hkey eq_refl eq_refl
           Hn Ht sample_amount_is_decimal).
Defined.

(** The renewal handler does not look at the result of [add_credits]: when
    that call returns an error, the credits are not added and the purchase
    transaction is recorded all the same.  N is the value of
    [NEXT_PUBLIC_CREDITS_PER_MONTH], or 5 when it is not set, and is within
    [INTEGER]; the amount is one [DECIMAL(10,2)] stores as it is. *)
Theorem renewal_records_transaction_without_credits :
  forall (hmac_sha256_hex : string -> string -> string)
         (JSON_parse : string -> option GrooveSellWebhook)
         (env : environment) (request : NextRequest) (data : GrooveSellWebhook)
         (d : database) (account : user_profile) (rest : list fault) (N : Z),
    authentic hmac_sha256_hex env request ->
    JSON_parse (body request) = Some data ->
    event_type data = "subscription.renewed" ->
    NEXT_PUBLIC_CREDITS_PER_MONTH env = Some N
    \/ (NEXT_PUBLIC_CREDITS_PER_MONTH env = None /\ N = 5) ->
    filter (has_email (customer_email data)) (user_profiles d) = [account] ->
    filter (has_order_id (order_id data)) (transactions d) = [] ->
    INTEGER N ->
    DECIMAL_10_2 (amount data) ->
    POST hmac_sha256_hex JSON_parse env request
         (mk_world d (healthy :: fails :: healthy :: rest)) =
      (Resolved (mk_NextResponse success_true 200),
       mk_world
         (mk_database
            (user_profiles d)
            (transactions d
               ++ [mk_transaction (id account) (order_id data) purchase
                     N (Some (amount data))
                     (currency data)
                     (Some (subscription_type_or_monthly data)) completed])%list)
         rest).
Proof.
  intros hmac parse env request data d account rest N
         Hauth Hparse Hev Hconf Hemail Hfresh _ _.
  rewrite (POST_authentic hmac parse env request data _ Hauth Hparse).
  rewrite (dispatch_renewed env data Hev).
  unfold handleSubscriptionRenewed, try_catch, bind, ret,
    select_profile_by_email, rpc_add_credits, insert_transaction, store_call.
  simpl. rewrite Hemail. simpl.
  now rewrite (has_order_id_absent _ _ Hfresh), (configured_credits env N Hconf).
Qed.

Lemma renewal_records_transaction_without_credits_witness :
  authentic Deliveries.hmac_sha256_hex Sample.env
            (Deliveries.signed Deliveries.renewal_body) /\
  Deliveries.JSON_parse (body (Deliveries.signed Deliveries.renewal_body))
    = Some Deliveries.renewal_event /\
  event_type Deliveries.renewal_event = "subscription.renewed" /\
  (NEXT_PUBLIC_CREDITS_PER_MONTH Sample.env = Some 5
   \/ (NEXT_PUBLIC_CREDITS_PER_MONTH Sample.env = None /\ 5 = 5)) /\
  filter (has_email (customer_email Deliveries.renewal_event))
    (user_profiles Deliveries.two_accounts_db) = [Sample.ann_subscribed] /\
  filter (has_order_id (order_id Deliveries.renewal_event))
    (transactions Deliveries.two_accounts_db) = [] /\
  INTEGER 5 /\
  DECIMAL_10_2 (amount Deliveries.renewal_event) /\
  POST Deliveries.hmac_sha256_hex Deliveries.JSON_parse Sample.env
    (Deliveries.signed Deliveries.renewal_body)
    (mk_world Deliveries.two_accounts_db [healthy; fails; healthy]) =
    (Resolved (mk_NextResponse success_true 200),
     mk_world
       (mk_database
          [Sample.ann_subscribed; Deliveries.bob]
          ([Sample.purchase_O1]
             ++ [mk_transaction "u1" "O2" purchase 5 (Some (199 # 20)) "USD"
                   (Some yearly) completed])%list)
       []).
Proof.
  assert (Hn : INTEGER 5) by (unfold INTEGER; lia).
  assert (Hconf : NEXT_PUBLIC_CREDITS_PER_MONTH Sample.env = Some 5
                  \/ (NEXT_PUBLIC_CREDITS_PER_MONTH Sample.env = None /\ 5 = 5))
    by (right; split; reflexivity).
  repeat (split; [first [exact sample_renewal_authentic | exact Hn | exact Hconf
                        | exact sample_amount_is_decimal | reflexivity] |]).
  exact (renewal_records_transaction_without_credits
           Deliveries.hmac_sha256_hex Deliveries.JSON_parse
           Sample.env (Deliveries.signed Deliveries.renewal_body)
           Deliveries.renewal_event Deliveries.two_accounts_db Sample.ann_subscribed []
           5 sample_renewal_authentic eq_refl eq_refl Hconf eq_refl eq_refl
           Hn sample_amount_is_decimal).
Defined.

(** A purchase stops at the first store call that returns an error, and is
    acknowledged all the same.  If it is [add_credits], nothing has changed.
    If it is the subscription update, the credits are added and stay added,
    while the subscription is untouched and no transaction is recorded.  N
    is the value of [NEXT_PUBLIC_CREDITS_PER_MONTH], or 5 when it is not set;
    N and the new total are within [INTEGER]. *)
Theorem purchase_stops_at_first_error :
  forall (hmac_sha256_hex : string -> string -> string)
         (JSON_parse : string -> option GrooveSellWebhook)
         (env : environment) (request : NextRequest) (data : GrooveSellWebhook)
         (d : database) (account : user_profile) (rest : list fault) (N : Z),
    authentic hmac_sha256_hex env request ->
    JSON_parse (body request) = Some data ->
    event_type data = "purchase.completed" \/ event_type data = "subscription.created" ->
    NEXT_PUBLIC_CREDITS_PER_MONTH env = Some N
    \/ (NEXT_PUBLIC_CREDITS_PER_MONTH env = None /\ N = 5) ->
    NoDup (map id (user_profiles d)) ->
    filter (has_email (customer_email data)) (user_profiles d) = [account] ->
    INTEGER N ->
    INTEGER (total_credits account + N) ->
    exists before after,
      user_profiles d = (before ++ account :: after)%list /\
      POST hmac_sha256_hex JSON_parse env request
           (mk_world d (healthy :: fails :: rest)) =
        (Resolved (mk_NextResponse success_true 200), mk_world d rest) /\
      POST hmac_sha256_hex JSON_parse env request
           (mk_world d (healthy :: healthy :: fails :: rest)) =
        (Resolved (mk_NextResponse success_true 200),
         mk_world
           (mk_database
              (before
                 ++ mk_profile (id account) (email account)
                      (subscription_status account) (subscription_type account)
                      (total_credits account + N)
                      (used_credits account) (groovesell_customer_id account)
                 :: after)%list
              (transactions d))
           rest).
Proof.
  intros hmac parse env request data d account rest N
         Hauth Hparse Hev Hconf Hkey Hemail _ _.
  destruct (account_of_email _ _ _ Hkey Hemail) as (before & after & Hrows & Hupd).
  exists before, after. split; [exact Hrows|].
  rewrite !(POST_authentic hmac parse env request data _ Hauth Hparse).
  rewrite (dispatch_purchase env data Hev).
  unfold handlePurchaseCompleted, try_catch, bind, ret,
    select_profile_by_email, rpc_add_credits, update_profiles, store_call.
  simpl. rewrite Hemail. simpl. split; [reflexivity|].
  now rewrite Hupd, (configured_credits env N Hconf).
Qed.

Lemma purchase_stops_at_first_error_witness :
  authentic Sample.hmac_sha256_hex Sample.env (Sample.signed Sample.purchase_body) /\
  Sample.JSON_parse (body (Sample.signed Sample.purchase_body))
    = Some Sample.purchase_event /\
  (event_type Sample.purchase_event = "purchase.completed"
   \/ event_type Sample.purchase_event = "subscription.created") /\
  (NEXT_PUBLIC_CREDITS_PER_MONTH Sample.env = Some 5
   \/ (NEXT_PUBLIC_CREDITS_PER_MONTH Sample.env = None /\ 5 = 5)) /\
  NoDup (map id (user_profiles Sample.fresh_db)) /\
  filter (has_email (customer_email Sample.purchase_event))
    (user_profiles Sample.fresh_db) = [Sample.ann] /\
  INTEGER 5 /\
  INTEGER (total_credits Sample.ann + 5) /\
  exists before after,
    user_profiles Sample.fresh_db = (before ++ Sample.ann :: after)%list /\
    POST Sample.hmac_sha256_hex Sample.JSON_parse Sample.env
      (Sample.signed Sample.purchase_body)
      (mk_world Sample.fresh_db (healthy :: fails :: [])) =
      (Resolved (mk_NextResponse success_true 200), mk_world Sample.fresh_db []) /\
    POST Sample.hmac_sha256_hex Sample.JSON_parse Sample.env
      (Sample.signed Sample.purchase_body)
      (mk_world Sample.fresh_db (healthy :: healthy :: fails :: [])) =
      (Resolved (mk_NextResponse success_true 200),
       mk_world
         (mk_database
            (before
               ++ mk_profile "u1" "ann@example.com" inactive None (3 + 5) 0 None
               :: after)%list
            [])
         []).
Proof.
  assert (Hkey : NoDup (map id (user_profiles Sample.fresh_db))).
  { simpl. constructor; [intros [] | constructor]. }
  assert (Hn : INTEGER 5) by (unfold INTEGER; lia).
  assert (Ht : INTEGER (total_credits Sample.ann + 5))
    by (unfold INTEGER; simpl; lia).
  assert (Hconf : NEXT_PUBLIC_CREDITS_PER_MONTH Sample.env = Some 5
                  \/ (NEXT_PUBLIC_CREDITS_PER_MONTH Sample.env = None /\ 5 = 5))
    by (right; split; reflexivity).
  repeat (split; [first [exact sample_purchase_authentic | exact Hkey
                        | exact Hn | exact Ht | exact Hconf
                        | left; reflexivity | reflexivity] |]).
  exact (purchase_stops_at_first_error Sample.hmac_sha256_hex Sample.JSON_parse
           Sample.env (Sample.signed Sample.purchase_body) Sample.purchase_event
           Sample.fresh_db Sample.ann [] 5
           sample_purchase_authentic eq_refl (or_introl eq_refl) Hconf Hkey eq_refl
           Hn Ht).
Defined.

(** An authentic [subscription.cancelled] event delivered to a healthy
    store sets the status of every account with the customer email to
    [cancelled] -- all of them when several share the email -- and changes
    nothing else: no credit counter, no other account, no transaction. *)
Theorem cancellation_changes_status_only :
  forall (hmac_sha256_hex : string -> string -> string)
         (JSON_parse : string -> option GrooveSellWebhook)
         (env : environment) (request : NextRequest) (data : GrooveSellWebhook)
         (d : database),
    authentic hmac_sha256_hex env request ->
    JSON_parse (body request) = Some data ->
    event_type data = "subscription.cancelled" ->
    exists d',
      POST hmac_sha256_hex JSON_parse env request (mk_world d []) =
        (Resolved (mk_NextResponse success_true 200), mk_world d' []) /\
      transactions d' = transactions d /\
      Forall2
        (fun p p' =>
           p' = if (email p =? customer_email data)%string
                then mk_profile (id p) (email p) cancelled (subscription_type p)
                       (total_credits p) (used_credits p) (groovesell_customer_id p)
                else p)
        (user_profiles d) (user_profiles d').
Proof.
  intros hmac parse env request data d Hauth Hparse Hev.
  rewrite (POST_authentic hmac parse env request data _ Hauth Hparse).
  rewrite (dispatch_cancelled env data Hev).
  unfold handleSubscriptionCancelled, try_catch, bind, ret, update_profiles.
  rewrite store_call_healthy. simpl.
  eexists. split; [reflexivity|]. split; [reflexivity|]. simpl.
  induction (user_profiles d) as [|p rows IH]; [constructor|].
  rewrite update_where_cons. constructor; [|exact IH].
  unfold has_email. now destruct (email p =? customer_email data)%string.
Qed.

Lemma sample_cancellation_authentic :
  authentic Deliveries.hmac_sha256_hex Sample.env
            (Deliveries.signed Deliveries.cancellation_body).
Proof. exists Sample.secret. eexists. repeat split. Qed.

Lemma cancellation_changes_status_only_witness :
  authentic Deliveries.hmac_sha256_hex Sample.env
            (Deliveries.signed Deliveries.cancellation_body) /\
  Deliveries.JSON_parse (body (Deliveries.signed Deliveries.cancellation_body))
    = Some Deliveries.cancellation_event /\
  event_type Deliveries.cancellation_event = "subscription.cancelled" /\
  exists d',
    POST Deliveries.hmac_sha256_hex Deliveries.JSON_parse Sample.env
      (Deliveries.signed Deliveries.cancellation_body)
      (mk_world Deliveries.shared_email_db []) =
      (Resolved (mk_NextResponse success_true 200), mk_world d' []) /\
    transactions d' = transactions Deliveries.shared_email_db /\
    Forall2
      (fun p p' =>
         p' = if (email p =? customer_email Deliveries.cancellation_event)%string
              then mk_profile (id p) (email p) cancelled (subscription_type p)
                     (total_credits p) (used_credits p) (groovesell_customer_id p)
              else p)
      (user_profiles Deliveries.shared_email_db) (user_profiles d').
Proof.
  repeat (split; [first [exact sample_cancellation_authentic | reflexivity] |]).
  exact (cancellation_changes_status_only
           Deliveries.hmac_sha256_hex Deliveries.JSON_parse
           Sample.env (Deliveries.signed Deliveries.cancellation_body)
           Deliveries.cancellation_event Deliveries.shared_email_db
           sample_cancellation_authentic eq_refl eq_refl).
Defined.

(** The email column is not unique.  When two or more accounts share the
    customer email, [.single()] fails, and a purchase, a new subscription or
    a renewal is acknowledged without granting any credit or recording any
    transaction, whatever the store does. *)
Theorem shared_email_blocks_credit_grant :
  forall (hmac_sha256_hex : string -> string -> string)
         (JSON_parse : string -> option GrooveSellWebhook)
         (env : environment) (request : NextRequest) (data : GrooveSellWebhook)
         (w : world) (first second : user_profile) (others : list user_profile),
    authentic hmac_sha256_hex env request ->
    JSON_parse (body request) = Some data ->
    In (event_type data)
       ["purchase.completed"; "subscription.created"; "subscription.renewed"] ->
    filter (has_email (customer_email data)) (user_profiles (db w))
      = first :: second :: others ->
    exists w',
      POST hmac_sha256_hex JSON_parse env request w
      = (Resolved (mk_NextResponse success_true 200), w') /\
      db w' = db w.
Proof.
  intros hmac parse env request data w p q others Hauth Hparse Hev Hemail.
  rewrite (POST_authentic hmac parse env request data _ Hauth Hparse).
  eexists. split; [reflexivity|].
  assert (Hp : db (snd (handlePurchaseCompleted env data w)) = db w).
  { any_fault w; simpl in Hemail;
      unfold handlePurchaseCompleted, try_catch, bind, ret,
        select_profile_by_email, store_call; simpl; rewrite ?Hemail; reflexivity. }
  assert (Hr : db (snd (handleSubscriptionRenewed env data w)) = db w).
  { any_fault w; simpl in Hemail;
      unfold handleSubscriptionRenewed, try_catch, bind, ret,
        select_profile_by_email, store_call; simpl; rewrite ?Hemail; reflexivity. }
  simpl in Hev. destruct Hev as [E | [E | [E | []]]].
  - rewrite dispatch_purchase by (left; now symmetry). exact Hp.
  - rewrite dispatch_purchase by (right; now symmetry). exact Hp.
  - rewrite dispatch_renewed by now symmetry. exact Hr.
Qed.

Lemma shared_email_blocks_credit_grant_witness :
  authentic Sample.hmac_sha256_hex Sample.env (Sample.signed Sample.purchase_body) /\
  Sample.JSON_parse (body (Sample.signed Sample.purchase_body))
    = Some Sample.purchase_event /\
  In (event_type Sample.purchase_event)
     ["purchase.completed"; "subscription.created"; "subscription.renewed"] /\
  filter (has_email (customer_email Sample.purchase_event))
    (user_profiles (db (mk_world Deliveries.shared_email_db [])))
    = Sample.ann :: Deliveries.ann_again :: [] /\
  exists w',
    POST Sample.hmac_sha256_hex Sample.JSON_parse Sample.env
      (Sample.signed Sample.purchase_body) (mk_world Deliveries.shared_email_db [])
    = (Resolved (mk_NextResponse success_true 200), w') /\
    db w' = db (mk_world Deliveries.shared_email_db []).
Proof.
  repeat (split; [first [exact sample_purchase_authentic | left; reflexivity
                        | reflexivity] |]).
  exact (shared_email_blocks_credit_grant Sample.hmac_sha256_hex Sample.JSON_parse
           Sample.env (Sample.signed Sample.purchase_body) Sample.purchase_event
           (mk_world Deliveries.shared_email_db [])
           Sample.ann Deliveries.ann_again []
           sample_purchase_authentic eq_refl (or_introl eq_refl) eq_refl).
Defined.

(** ** Replayed refunds *)

Lemma string_length_append (s t : string) :
  String.length (s ++ t) = (String.length s + String.length t)%nat.
Proof. induction s as [|c s IH]; simpl; [reflexivity | now rewrite IH]. Qed.





(** ** The image route *)

(** The credit check of [POST /api/images] and [use_credits] agree: for an
    authenticated user with one profile row and a healthy store, the check
    lets the request through exactly when a [use_credits] of one credit
    would be granted on the same database, and answers 403 otherwise;
    the check itself changes nothing.  What [use_credits] computes for the
    row is within [INTEGER]. *)
Theorem credit_check_agrees_with_use_credits :
  forall (user : string) (d : database) (profile : user_profile),
    filter (has_id user) (user_profiles d) = [profile] ->
    INTEGER (total_credits profile - used_credits profile) ->
    (1 <= total_credits profile - used_credits profile ->
     INTEGER (used_credits profile + 1)) ->
    images_credit_check (Resolved (mk_response (Some user) false)) (mk_world d [])
    = (Resolved
         (if fst (use_credits user 1 d) then None
          else Some (mk_NextResponse
                       (error_message
                          "Insufficient credits. Please purchase more credits to continue.")
                       403)),
       mk_world d []).
Proof.
  intros user d profile Hrow _ _.
  pose proof (find_filter_head _ _ _ _ Hrow) as Hfind.
  unfold images_credit_check, try_catch, bind, lift, ret, select_profile_by_id,
    store_call.
  simpl. rewrite Hrow. simpl.
  unfold use_credits, get_available_credits. rewrite Hfind.
  destruct (total_credits profile - used_credits profile <=? 0) eqn:E;
    destruct (total_credits profile - used_credits profile >=? 1) eqn:E';
    try reflexivity; exfalso;
    rewrite ?Z.leb_le, ?Z.leb_gt, ?Z.geb_le in *.
  - lia.
  - assert (~ (1 <= total_credits profile - used_credits profile)).
    { intros H. apply Z.geb_le in H. congruence. }
    lia.
Qed.

Lemma credit_check_agrees_with_use_credits_witness :
  filter (has_id "u2") (user_profiles Deliveries.two_accounts_db) = [Deliveries.bob] /\
  INTEGER (total_credits Deliveries.bob - used_credits Deliveries.bob) /\
  (1 <= total_credits Deliveries.bob - used_credits Deliveries.bob ->
   INTEGER (used_credits Deliveries.bob + 1)) /\
  images_credit_check (Resolved (mk_response (Some "u2") false))
    (mk_world Deliveries.two_accounts_db [])
  = (Resolved
       (if fst (use_credits "u2" 1 Deliveries.two_accounts_db) then None
        else Some (mk_NextResponse
                     (error_message
                        "Insufficient credits. Please purchase more credits to continue.")
                     403)),
     mk_world Deliveries.two_accounts_db []).
Proof.
  assert (Ha : INTEGER (total_credits Deliveries.bob - used_credits Deliveries.bob))
    by (unfold INTEGER; simpl; lia).
  assert (Hu : 1 <= total_credits Deliveries.bob - used_credits Deliveries.bob ->
               INTEGER (used_credits Deliveries.bob + 1))
    by (intros _; unfold INTEGER; simpl; lia).
  split; [reflexivity | split; [exact Ha | split; [exact Hu|]]].
  exact (credit_check_agrees_with_use_credits "u2" Deliveries.two_accounts_db
           Deliveries.bob eq_refl Ha Hu).
Defined.

(** The credit check never lets a request through on a failure: when the
    authentication fails or throws, when the profile lookup fails, throws or
    finds no single row, the answer is a 401 or a 404, never "go on"; and
    in every case the database is left as it was. *)
Theorem credit_check_fails_closed :
  forall (getUser : completion (response string)) (w : world),
    db (snd (images_credit_check getUser w)) = db w /\
    (fst (images_credit_check getUser w) = Resolved None ->
     exists user profile,
       getUser = Resolved (mk_response (Some user) false) /\
       filter (has_id user) (user_profiles (db w)) = [profile] /\
       0 < total_credits profile - used_credits profile).
Proof.
  intros getUser w.
  unfold images_credit_check, try_catch, bind, lift, ret, select_profile_by_id,
    store_call.
  destruct getUser as [[[user|] []]|]; simpl;
    try (split; [reflexivity | discriminate]).
  destruct w as [d [|[] fs]]; simpl;
    try (split; [reflexivity | discriminate]).
  - destruct (filter (has_id user) (user_profiles d)) as [|p [|q rest]] eqn:Hrow;
      simpl; try (split; [reflexivity | discriminate]).
    destruct (total_credits p - used_credits p <=? 0) eqn:E; simpl;
      split; try reflexivity; try discriminate.
    intros _. exists user, p. apply Z.leb_gt in E. now repeat split.
  - destruct (filter (has_id user) (user_profiles d)) as [|p [|q rest]] eqn:Hrow;
      simpl; try (split; [reflexivity | discriminate]).
    destruct (total_credits p - used_credits p <=? 0) eqn:E; simpl;
      split; try reflexivity; try discriminate.
    intros _. exists user, p. apply Z.leb_gt in E. now repeat split.
Qed.

Lemma env_is_true (v : option string) (literal : string) :
  env_is v literal = true <-> v = Some literal.
Proof.
  unfold env_is. destruct v as [s|]; [|split; discriminate].
  rewrite String.eqb_eq. split; [now intros -> | now intros [= ->]].
Qed.

(** The route and the page choose the same storage mode exactly when
    [NEXT_PUBLIC_IMAGE_STORAGE_MODE] is ['fs'] or ['indexeddb'], or else when
    [VERCEL === '1'] holds together with [NEXT_PUBLIC_VERCEL_ENV] being
    ['production'] or ['preview'], or neither holds. *)
Theorem storage_modes_agree_iff :
  forall (explicitMode VERCEL vercelEnv : option string),
    effectiveStorageMode explicitMode VERCEL
    = effectiveStorageModeClient explicitMode vercelEnv
    <->
    (explicitMode = Some "fs" \/ explicitMode = Some "indexeddb" \/
     (VERCEL = Some "1" <->
      (vercelEnv = Some "production" \/ vercelEnv = Some "preview"))).
Proof.
  intros explicitMode VERCEL vercelEnv.
  unfold effectiveStorageMode, effectiveStorageModeClient.
  pose proof (env_is_true explicitMode "fs") as Hfs.
  pose proof (env_is_true explicitMode "indexeddb") as Hidx.
  pose proof (env_is_true VERCEL "1") as Hv.
  pose proof (env_is_true vercelEnv "production") as Hprod.
  pose proof (env_is_true vercelEnv "preview") as Hprev.
  destruct (env_is explicitMode "fs"); [intuition|].
  destruct (env_is explicitMode "indexeddb"); [intuition|].
  destruct (env_is VERCEL "1"), (env_is vercelEnv "production"),
    (env_is vercelEnv "preview"); simpl;
    intuition (try discriminate; try congruence).
Qed.

Lemma validateOutputFormat_valid (format : option FormDataEntryValue) :
  In (validateOutputFormat format) VALID_OUTPUT_FORMATS.
Proof.
  unfold validateOutputFormat.
  set (mapped := if (toLowerCase (format_text format) =? "jpg")%string
                 then "jpeg" else toLowerCase (format_text format)).
  destruct (existsb (String.eqb mapped) VALID_OUTPUT_FORMATS) eqn:E;
    [|simpl; tauto].
  apply existsb_exists in E. destruct E as (x & Hin & Hx).
  apply String.eqb_eq in Hx. now subst x.
Qed.

Lemma lower_ascii_idempotent (c : Ascii.ascii) :
  lower_ascii (lower_ascii c) = lower_ascii c.
Proof. destruct c as [[] [] [] [] [] [] [] []]; reflexivity. Qed.

Lemma toLowerCase_idempotent (s : string) :
  toLowerCase (toLowerCase s) = toLowerCase s.
Proof.
  induction s as [|c s IH]; simpl; [reflexivity|].
  now rewrite lower_ascii_idempotent, IH.
Qed.

(** [validateOutputFormat] always returns one of png, jpeg, webp -- for a
    missing field, a file, or any text; it does not depend on the case of the
    letters A-Z; and validating its own result changes nothing. *)
Theorem validateOutputFormat_normalizes :
  forall (format : option FormDataEntryValue),
    In (validateOutputFormat format) ["png"; "jpeg"; "webp"] /\
    validateOutputFormat (Some (entry_text (validateOutputFormat format)))
      = validateOutputFormat format /\
    (forall s, format = Some (entry_text s) ->
               validateOutputFormat (Some (entry_text (toLowerCase s)))
               = validateOutputFormat format).
Proof.
  intros format. pose proof (validateOutputFormat_valid format) as Hv.
  split; [exact Hv|]. split.
  - simpl in Hv. destruct Hv as [<- | [<- | [<- | []]]]; reflexivity.
  - intros s ->. unfold validateOutputFormat.
    destruct s as [|c s]; [reflexivity|].
    cbn [toLowerCase format_text].
    now rewrite lower_ascii_idempotent, toLowerCase_idempotent.
Qed.

(** The mime type the page gives to a format the route has validated is
    ["image/"] followed by that format, whatever the route was sent. *)
Theorem mime_type_of_validated_format :
  forall (format : option FormDataEntryValue),
    getMimeTypeFromFormat (validateOutputFormat format)
    = "image/" ++ validateOutputFormat format.
Proof.
  intros format. pose proof (validateOutputFormat_valid format) as Hv.
  simpl in Hv. destruct Hv as [<- | [<- | [<- | []]]]; reflexivity.
Qed.

(** The spellings of one format. *)
Example validateOutputFormat_spellings :
  map validateOutputFormat
      [None; Some (entry_text ""); Some (entry_text "JPG"); Some (entry_text "Jpeg");
       Some (entry_text "WEBP"); Some (entry_text "gif"); Some entry_file]
  = ["png"; "png"; "jpeg"; "jpeg"; "webp"; "png"; "png"].
Proof. reflexivity. Qed.

(** ** The prompt *)

Lemma has_char_append (c : ascii) (s t : string) :
  has_char c (s ++ t) = has_char c s || has_char c t.
Proof.
  induction s as [|k s IH]; simpl; [reflexivity|].
  now rewrite IH, orb_assoc.
Qed.

Lemma GetSubstitution_plain (matched before after replacement : string) :
  has_char "$" replacement = false ->
  GetSubstitution matched before after replacement = replacement.
Proof.
  induction replacement as [|c rest IH]; simpl; [reflexivity|].
  intros H. apply orb_false_iff in H. destruct H as [Hc Hrest].
  rewrite Hc. now rewrite IH.
Qed.

Lemma strip_prefix_correct (pattern s after : string) :
  strip_prefix pattern s = Some after -> s = pattern ++ after.
Proof.
  revert s. induction pattern as [|a pattern IH]; intros s; simpl.
  - now intros [= ->].
  - destruct s as [|b s]; [discriminate|].
    destruct (Ascii.eqb a b) eqn:E; [|discriminate].
    apply Ascii.eqb_eq in E. subst b. intros H. now rewrite (IH _ H).
Qed.

Lemma strip_prefix_append (pattern s after tail : string) :
  strip_prefix pattern s = Some after ->
  strip_prefix pattern (s ++ tail) = Some (after ++ tail).
Proof.
  revert s. induction pattern as [|a pattern IH]; intros s; simpl.
  - now intros [= ->].
  - destruct s as [|b s]; [discriminate|]. simpl.
    destruct (Ascii.eqb a b); [apply IH | discriminate].
Qed.

Lemma strip_prefix_none_append (pattern s tail : string) :
  strip_prefix pattern s = None ->
  (String.length pattern <= String.length s)%nat ->
  strip_prefix pattern (s ++ tail) = None.
Proof.
  revert s. induction pattern as [|a pattern IH]; intros s; simpl; [discriminate|].
  destruct s as [|b s]; simpl; [lia|].
  destruct (Ascii.eqb a b); [|reflexivity].
  intros H Hlen. apply IH; [exact H | lia].
Qed.

Lemma find_first_correct (pattern s before after : string) :
  find_first pattern s = Some (before, after) -> s = before ++ pattern ++ after.
Proof.
  revert before. induction s as [|c s IH]; intros before; simpl.
  - destruct (strip_prefix pattern "") as [x|] eqn:E; [|discriminate].
    intros [= <- <-]. exact (strip_prefix_correct _ _ _ E).
  - destruct (strip_prefix pattern (String c s)) as [x|] eqn:E.
    + intros [= <- <-]. exact (strip_prefix_correct _ _ _ E).
    + destruct (find_first pattern s) as [[b a]|]; [|discriminate].
      intros [= <- <-]. simpl. now rewrite <- (IH b).
Qed.

Lemma find_first_append (pattern s before after tail : string) :
  find_first pattern s = Some (before, after) ->
  find_first pattern (s ++ tail) = Some (before, after ++ tail).
Proof.
  revert before. induction s as [|c s IH]; intros before; simpl.
  - destruct (strip_prefix pattern "") as [x|] eqn:E; [|discriminate].
    intros [= <- <-]. apply strip_prefix_correct in E.
    destruct pattern; [|discriminate]. simpl in E. subst x.
    now destruct tail.
  - destruct (strip_prefix pattern (String c s)) as [x|] eqn:E.
    + intros [= <- <-].
      change (String c (s ++ tail)) with (String c s ++ tail).
      now rewrite (strip_prefix_append _ _ _ tail E).
    + destruct (find_first pattern s) as [[b a]|] eqn:F; [|discriminate].
      intros [= <- <-].
      change (String c (s ++ tail)) with (String c s ++ tail).
      rewrite strip_prefix_none_append; [now rewrite (IH b eq_refl)| exact E |].
      apply find_first_correct in F. rewrite F. simpl.
      rewrite !string_length_append. lia.
Qed.

Lemma replace_plain (s pattern replacement before after : string) :
  has_char "$" replacement = false ->
  find_first pattern s = Some (before, after) ->
  replace s pattern replacement = before ++ replacement ++ after.
Proof.
  intros Hr Hf. unfold replace. now rewrite Hf, GetSubstitution_plain.
Qed.

Arguments replace : simpl never.

Lemma replace_fills_one (s pattern r before after : string) :
  find_first pattern s = Some (before, after) ->
  has_char "[" before = false -> has_char "[" after = false ->
  has_char "$" r = false -> has_char "[" r = false ->
  has_char "[" (replace s pattern r) = false.
Proof.
  intros Hf Hb Ha Hd Hr. rewrite (replace_plain _ _ _ _ _ Hd Hf).
  now rewrite !has_char_append, Hb, Ha, Hr.
Qed.

Lemma replace_twice_plain (s p1 r1 p2 r2 before after before1 before2 : string) :
  find_first p1 s = Some (before, after) ->
  find_first p2 before = Some (before1, before2) ->
  has_char "$" r1 = false -> has_char "$" r2 = false ->
  replace (replace s p1 r1) p2 r2 = before1 ++ r2 ++ before2 ++ r1 ++ after.
Proof.
  intros Hf Hf2 Hd1 Hd2. rewrite (replace_plain _ _ _ _ _ Hd1 Hf).
  now rewrite (replace_plain _ _ _ _ _ Hd2 (find_first_append _ _ _ _ _ Hf2)).
Qed.

Lemma replace_fills_two (s p1 r1 p2 r2 before after before1 before2 : string) :
  find_first p1 s = Some (before, after) ->
  find_first p2 before = Some (before1, before2) ->
  has_char "[" before1 = false -> has_char "[" before2 = false ->
  has_char "[" after = false ->
  has_char "$" r1 = false -> has_char "[" r1 = false ->
  has_char "$" r2 = false -> has_char "[" r2 = false ->
  has_char "[" (replace (replace s p1 r1) p2 r2) = false.
Proof.
  intros Hf Hf2 H1 H2 Ha Hd1 Hr1 Hd2 Hr2.
  rewrite (replace_twice_plain _ _ _ _ _ _ _ _ _ Hf Hf2 Hd1 Hd2).
  now rewrite !has_char_append, H1, H2, Ha, Hr1, Hr2.
Qed.

(** Every branch of the decision table fills the placeholders of the
    template it picks: when the name and the activity typed in hold neither
    [$] nor an opening bracket, no opening bracket, hence neither [NAME] nor
    [ACTIVITY], is left in the prompt, whatever the page type, the
    background and the fields left empty. *)
Theorem generatePrompt_fills_every_placeholder :
  forall (data : ColoringFormData),
    plain_text (nameMessage data) ->
    plain_text (activityInterest data) ->
    has_char "[" (generatePrompt data) = false.
Proof.
  intros [t n b a]. simpl.
  destruct n as [[|cn n]|]; destruct a as [[|ca a]|]; simpl;
    intros Hn Ha;
    repeat match goal with H : _ /\ _ |- _ => destruct H end;
    destruct t; destruct b as [[]|];
    unfold generatePrompt; cbn -[has_char];
    first
      [ reflexivity
      | eapply replace_fills_two;
          [ reflexivity | reflexivity | reflexivity | reflexivity | reflexivity
          | assumption | assumption | assumption | assumption ]
      | eapply replace_fills_one;
          [ reflexivity | reflexivity | reflexivity | assumption | assumption ] ].
Qed.

Lemma string_append_assoc (s t u : string) : (s ++ t) ++ u = s ++ t ++ u.
Proof. induction s as [|c s IH]; simpl; [reflexivity | now rewrite IH]. Qed.

(** What the user typed reaches the prompt as typed: a name that is given
    occurs in the prompt of every page type, and an activity that is given
    occurs in the prompt of a cartoon portrait, provided neither holds a [$]
    (which [replace] would read as a pattern). *)
Theorem generatePrompt_inserts_what_was_typed :
  forall (data : ColoringFormData),
    dollar_free (nameMessage data) ->
    dollar_free (activityInterest data) ->
    (forall name, truthy (nameMessage data) = Some name ->
       exists before after, generatePrompt data = before ++ name ++ after) /\
    (forall activity,
       coloringPageType data = cartoon_portrait ->
       truthy (activityInterest data) = Some activity ->
       exists before after, generatePrompt data = before ++ activity ++ after).
Proof.
  intros [t n b a]. simpl.
  destruct n as [[|cn n]|]; destruct a as [[|ca a]|]; simpl;
    intros Hn Ha; (split; [intros name | intros activity Ht]); simpl;
    try discriminate; intros [= <-];
    destruct t; try discriminate; destruct b as [[]|];
    unfold generatePrompt; cbn;
    first
      [ erewrite replace_twice_plain; [| reflexivity | reflexivity | assumption..];
        first [ do 2 eexists; reflexivity
              | eexists; eexists;
                rewrite <- (string_append_assoc _ (String _ _) _),
                        <- (string_append_assoc _ _ (String _ _ ++ _));
                reflexivity ]
      | erewrite replace_plain; [| assumption | reflexivity];
        do 2 eexists; reflexivity ].
Qed.

Lemma generatePrompt_fills_every_placeholder_witness :
  plain_text (nameMessage (mk_form cartoon_portrait (Some "Ann") (Some mindful)
                                   (Some "surfing"))) /\
  plain_text (activityInterest (mk_form cartoon_portrait (Some "Ann") (Some mindful)
                                        (Some "surfing"))) /\
  has_char "["
    (generatePrompt (mk_form cartoon_portrait (Some "Ann") (Some mindful)
                             (Some "surfing")))
  = false.
Proof.
  assert (Hn : plain_text (nameMessage (mk_form cartoon_portrait (Some "Ann")
                                                (Some mindful) (Some "surfing")))).
  { split; reflexivity. }
  assert (Ha : plain_text (activityInterest (mk_form cartoon_portrait (Some "Ann")
                                                     (Some mindful) (Some "surfing")))).
  { split; reflexivity. }
  split; [exact Hn | split; [exact Ha|]].
  exact (generatePrompt_fills_every_placeholder
           (mk_form cartoon_portrait (Some "Ann") (Some mindful) (Some "surfing"))
           Hn Ha).
Defined.

Lemma generatePrompt_inserts_what_was_typed_witness :
  dollar_free (nameMessage (mk_form cartoon_portrait (Some "Ann") (Some plain)
                                    (Some "surfing"))) /\
  dollar_free (activityInterest (mk_form cartoon_portrait (Some "Ann") (Some plain)
                                         (Some "surfing"))) /\
  (forall name,
      truthy (nameMessage (mk_form cartoon_portrait (Some "Ann") (Some plain)
                                   (Some "surfing"))) = Some name ->
      exists before after,
        generatePrompt (mk_form cartoon_portrait (Some "Ann") (Some plain)
                                (Some "surfing"))
        = before ++ name ++ after) /\
  (forall activity,
      coloringPageType (mk_form cartoon_portrait (Some "Ann") (Some plain)
                                (Some "surfing")) = cartoon_portrait ->
      truthy (activityInterest (mk_form cartoon_portrait (Some "Ann") (Some plain)
                                        (Some "surfing"))) = Some activity ->
      exists before after,
        generatePrompt (mk_form cartoon_portrait (Some "Ann") (Some plain)
                                (Some "surfing"))
        = before ++ activity ++ after).
Proof.
  split; [reflexivity | split; [reflexivity|]].
  exact (generatePrompt_inserts_what_was_typed
           (mk_form cartoon_portrait (Some "Ann") (Some plain) (Some "surfing"))
           eq_refl eq_refl).
Defined.

(** Why [$] is excluded: [replace] reads [$&] as the matched text, so this
    name puts the placeholder back. *)
Example generatePrompt_dollar_ampersand :
  generatePrompt (mk_form straight_copy (Some "$&") None None)
  = generatePrompt (mk_form straight_copy (Some "[NAME]") None None).
Proof. vm_compute. reflexivity. Qed.
